(** * NPK deployment pre-flight: a shallow embedding of [generate]

    The program under study is the [generate] function of the NPK
    deployment script (index.js) together with the quota gate of the
    deprecated shell variant (deploy.sh).  [generate] reads a settings
    document, surveys the account (hosted zone, regions, service quotas,
    availability zones, spot service-linked role) and hands one
    [validatedSettings] object to the template engine.

    Remote calls are answered by a [World]; everything [generate] does that
    is visible from outside (console lines, remote calls, calls into the
    template engine) is appended to a trace. *)

From Stdlib Require Import List String Ascii ZArith Bool Lia Permutation.
Import ListNotations.

Local Open Scope string_scope.
Local Open Scope Z_scope.

(** ** JavaScript values and library functions used by the script *)

(** A parsed JSON value.  Numbers are kept as integers: the script only
    tests them for truthiness. *)
#[warnings="-register-all"]
Inductive json : Type :=
| JNull
| JBool (b : bool)
| JNum (n : Z)
| JStr (s : string)
| JArr (items : list json)
| JObj (fields : list (string * json)).

(** [!!v] *)
Definition truthy (v : json) : bool :=
  match v with
  | JNull => false
  | JBool b => b
  | JNum n => negb (n =? 0)
  | JStr s => negb (String.eqb s EmptyString)
  | JArr _ => true
  | JObj _ => true
  end.

(** [Array.prototype.indexOf] on an array of strings: the first index
    holding [x], or -1. *)
Fixpoint indexOf_from (i : Z) (x : string) (l : list string) : Z :=
  match l with
  | [] => -1
  | y :: r => if String.eqb y x then i else indexOf_from (i + 1) x r
  end.

Definition indexOf (x : string) (l : list string) : Z := indexOf_from 0 x l.

(** [String.prototype.slice(b, e)]: negative positions count from the end,
    and both ends are clamped to the string. *)
Definition slice (s : string) (b e : Z) : string :=
  let len := Z.of_nat (String.length s) in
  let from := if b <? 0 then Z.max (len + b) 0 else Z.min b len in
  let to := if e <? 0 then Z.max (len + e) 0 else Z.min e len in
  substring (Z.to_nat from) (Z.to_nat (Z.max (to - from) 0)) s.

(** A JavaScript object used as a map from strings: its own properties in
    insertion order.  The keys used by the script (setting names, region
    names, quota codes) are not array indices, so [Object.keys] lists them
    in the order they were first written. *)
Module JsObject.

Definition t (V : Type) : Type := list (string * V).

Fixpoint get {V} (k : string) (o : t V) : option V :=
  match o with
  | [] => None
  | (k', v) :: r => if String.eqb k' k then Some v else get k r
  end.

(** [o[k] = v]: an existing property keeps its place. *)
Fixpoint set {V} (k : string) (v : V) (o : t V) : t V :=
  match o with
  | [] => [(k, v)]
  | (k', v') :: r =>
      if String.eqb k' k then (k, v) :: r else (k', v') :: set k v r
  end.

(** [Object.keys(o)] *)
Definition keys {V} (o : t V) : list string := map fst o.

End JsObject.

Definition Obj (V : Type) : Type := JsObject.t V.

(** A promise that has settled. *)
Inductive Settled (A : Type) : Type :=
| Resolved (a : A)
| Rejected (e : string).

Arguments Resolved {A} a.
Arguments Rejected {A} e.

(** The order in which promises issued together settle.  [picks] chooses,
    at each step, which of the promises still pending settles next (a pick
    beyond the end takes the last one); any [picks] gives an order. *)
Fixpoint pick {A} (n : nat) (x : A) (l : list A) : A * list A :=
  match n, l with
  | O, _ => (x, l)
  | S _, [] => (x, [])
  | S n', y :: r => let '(z, rest) := pick n' y r in (z, x :: rest)
  end.

Fixpoint settle_fuel {A} (fuel : nat) (picks : list nat) (pending : list A)
  : list A :=
  match fuel, pending with
  | S f, x :: l =>
      let '(z, rest) := pick (hd O picks) x l in
      z :: settle_fuel f (tl picks) rest
  | _, _ => []
  end.

Definition settle {A} (picks : list nat) (pending : list A) : list A :=
  settle_fuel (List.length pending) picks pending.

(** ** Remote responses *)

(** A row of [listServiceQuotas]. Quota values are counts, kept as integers. *)
Record Quota : Type := { QuotaCode : string; Value : Z }.

(** A row of [describeRegions]. *)
Record Region : Type := { RegionName : string; OptInStatus : string }.

(** A row of [describeAvailabilityZones]. *)
Record AvailabilityZone : Type := { ZoneName : string; State : string }.

(** An entry of jsonnet/gpu_instance_families.json.  The script reads only
    [quotaCode] from it; the content of the catalog is an input of the
    model. *)
Record Family : Type := { quotaCode : string }.

(** Everything outside the script: files, the provider and the template
    engine. *)
Record World : Type := {
  (** [JSON.parse(fs.readFileSync('./npk-settings.json'))], a JSON object *)
  npk_settings : Settled (Obj json);
  (** [sonnetry.auth()] *)
  auth : Settled unit;
  (** [route53.getHostedZone({Id})], giving [HostedZone.Name] *)
  getHostedZone : json -> Settled string;
  (** [ec2.describeRegions()], giving [Regions] *)
  describeRegions : Settled (list Region);
  (** the catalog of GPU instance families, by family name *)
  gpu_instance_families : Obj Family;
  (** [sq.listServiceQuotas({ServiceCode: 'ec2'})] in a region, giving [Quotas] *)
  listServiceQuotas : string -> Settled (list Quota);
  (** the order in which the quota promises settle *)
  quotaSettling : list nat;
  (** [ec2.describeAvailabilityZones()] in a region *)
  describeAvailabilityZones : string -> Settled (list AvailabilityZone);
  (** the order in which the zone promises settle *)
  zoneSettling : list nat;
  (** [iam.getRole({RoleName})] *)
  getRole : string -> Settled unit;
  (** [sonnetry.render('terraform.jsonnet')] *)
  render : Settled unit;
  (** [sonnetry.apply(true, true)] *)
  apply : Settled unit
}.

(** ** The state of a run *)

(** The [validatedSettings] object; a field is [None] until it is assigned. *)
Record ValidatedSettings : Type := {
  dnsBaseName : option string;
  providerRegions : option (list string);
  quotas : option (Obj (Obj Z));
  regions : option (Obj (list string));
  spotslr_exists : option bool
}.

Definition emptySettings : ValidatedSettings :=
  {| dnsBaseName := None; providerRegions := None; quotas := None;
     regions := None; spotslr_exists := None |}.

Definition set_dnsBaseName (x : string) (v : ValidatedSettings) :=
  {| dnsBaseName := Some x; providerRegions := providerRegions v;
     quotas := quotas v; regions := regions v;
     spotslr_exists := spotslr_exists v |}.

Definition set_providerRegions (x : list string) (v : ValidatedSettings) :=
  {| dnsBaseName := dnsBaseName v; providerRegions := Some x;
     quotas := quotas v; regions := regions v;
     spotslr_exists := spotslr_exists v |}.

Definition set_quotas (x : Obj (Obj Z)) (v : ValidatedSettings) :=
  {| dnsBaseName := dnsBaseName v; providerRegions := providerRegions v;
     quotas := Some x; regions := regions v;
     spotslr_exists := spotslr_exists v |}.

Definition set_regions (x : Obj (list string)) (v : ValidatedSettings) :=
  {| dnsBaseName := dnsBaseName v; providerRegions := providerRegions v;
     quotas := quotas v; regions := Some x;
     spotslr_exists := spotslr_exists v |}.

Definition set_spotslr_exists (x : bool) (v : ValidatedSettings) :=
  {| dnsBaseName := dnsBaseName v; providerRegions := providerRegions v;
     quotas := quotas v; regions := regions v;
     spotslr_exists := Some x |}.

(** What a run does that can be seen from outside, in order. *)
Inductive Event : Type :=
| Log (line : string)                        (* console.log *)
| SetAwsProfile (profile : json)             (* process.env.AWS_PROFILE = ... *)
| Auth                                       (* sonnetry.auth() *)
| GetHostedZone (Id : json)
| DescribeRegions
| ListServiceQuotas (region : string)
| DescribeAvailabilityZones (region : string)
| GetRole (RoleName : string)
| Export (snapshot : ValidatedSettings)      (* sonnetry.export *)
| Render
| Trace (e : string)                         (* console.trace *)
| WriteConfigs                               (* sonnetry.write() *)
| Apply.

Record Machine : Type := {
  validatedSettings : ValidatedSettings;
  trace : list Event
}.

Definition start : Machine :=
  {| validatedSettings := emptySettings; trace := [] |}.

(** How a piece of [generate] ends: it falls through to the next statement
    with a value, executes [return b], or throws (the promise returned by
    [generate] rejects; nothing in the script catches that). *)
Inductive Completion (A : Type) : Type :=
| Next (a : A)
| Return (b : bool)
| Throw (e : string).

Arguments Next {A} a.
Arguments Return {A} b.
Arguments Throw {A} e.

Definition M (A : Type) : Type := Machine -> Completion A * Machine.

Definition ret {A} (a : A) : M A := fun m => (Next a, m).

Definition bind {A B} (c : M A) (k : A -> M B) : M B :=
  fun m =>
    match c m with
    | (Next a, m') => k a m'
    | (Return b, m') => (Return b, m')
    | (Throw e, m') => (Throw e, m')
    end.

Notation "x <- c ;; k" := (bind c (fun x => k))
  (at level 61, c at next level, right associativity).
Notation "c ;; k" := (bind c (fun _ => k))
  (at level 61, right associativity).

Definition emit (e : Event) : M unit :=
  fun m => (Next tt, {| validatedSettings := validatedSettings m;
                        trace := (trace m ++ [e])%list |}).

Definition log (line : string) : M unit := emit (Log line).

Definition update (f : ValidatedSettings -> ValidatedSettings) : M unit :=
  fun m => (Next tt, {| validatedSettings := f (validatedSettings m);
                        trace := trace m |}).

Definition return_ {A} (b : bool) : M A := fun m => (Return b, m).

Definition throw {A} (e : string) : M A := fun m => (Throw e, m).

Definition when (b : bool) (c : M unit) : M unit := if b then c else ret tt.

Fixpoint forEach {A} (l : list A) (f : A -> M unit) : M unit :=
  match l with
  | [] => ret tt
  | x :: r => f x ;; forEach r f
  end.

(** [Promise.all] over promises that carry a [then] callback, taken in the
    order in which they settle: a resolved promise runs its callback, the
    first rejection (from the call or thrown by the callback) rejects the
    whole and the [await] throws. *)
Fixpoint promise_all {A S} (settled : list (string * Settled A))
  (callback : S -> string -> A -> Settled S) (s : S) : M S :=
  match settled with
  | [] => ret s
  | (region, Resolved data) :: r =>
      match callback s region data with
      | Resolved s' => promise_all r callback s'
      | Rejected e => throw e
      end
  | (_, Rejected e) :: _ => throw e
  end.

(** ** The script *)

Definition nl : string := String "010" EmptyString.

Definition banner : list string :=
  [ "***********************************************************";
    " Hello friend! Thanks for using NPK!";
    EmptyString;
    " Need help, want to contribute, or want to brag about a win?";
    " Join us on Discord! [ https://discord.gg/k5PQnqSNDF ]";
    EmptyString;
    " Sincerely, @c6fc";
    "***********************************************************";
    EmptyString ].

Definition allowedSettings : list string :=
  [ "campaign_data_ttl"; "campaign_max_price"; "georestrictions";
    "route53Zone"; "awsProfile"; "criticalEventsSMS"; "adminEmail";
    "sAMLMetadataFile"; "sAMLMetadataUrl"; "primaryRegion" ].

(** Lines 27-42: read the settings, select the profile, authenticate. *)
Definition load_settings (w : World) : M (Obj json) :=
  settings <-
    match npk_settings w with
    | Resolved settings => ret settings
    | Rejected e =>
        log e ;;
        log (nl ++ "[!] Unable to open npk-settings.json. Does it exist?") ;;
        return_ false
    end ;;
  match JsObject.get "awsProfile" settings with
  | Some profile => when (truthy profile) (emit (SetAwsProfile profile))
  | None => ret tt
  end ;;
  emit Auth ;;
  match auth w with
  | Resolved _ => ret settings
  | Rejected e => throw e
  end.

(** The keys of the document that [filter] keeps at line 61. *)
Definition badSettings (settings : Obj json) : list string :=
  filter (fun e => indexOf e allowedSettings <? 0) (JsObject.keys settings).

Definition invalid_setting_line (e : string) : string :=
  "[!] Invalid setting key [" ++ e ++ "] in npk-settings.json".

(** Lines 46-67. *)
Definition check_settings (settings : Obj json) : M unit :=
  forEach (badSettings settings) (fun e => log (invalid_setting_line e)) ;;
  when (0 <? Z.of_nat (List.length (badSettings settings)))
    (log "[!] Fix your settings, then try again." ;; return_ false).

(** Lines 69-87. *)
Definition resolve_zone (w : World) (settings : Obj json) : M unit :=
  match JsObject.get "route53Zone" settings with
  | Some id =>
      when (truthy id)
        (emit (GetHostedZone id) ;;
         match getHostedZone w id with
         | Resolved Name =>
             update (set_dnsBaseName (slice Name 0 (-1))) ;;
             log "[+] Validated route53Zone"
         | Rejected e =>
             log ("[!] Unable to retrieve hosted zone. " ++ e) ;;
             return_ false
         end)
  | None => ret tt
  end.

Definition activeRegions (Regions : list Region) : list string :=
  map RegionName
    (filter (fun r =>
       indexOf (OptInStatus r) ["opt-in-not-required"; "opted-in"] >? -1)
       Regions).

(** Lines 89-107. *)
Definition enumerate_regions (w : World) : M (list string) :=
  emit DescribeRegions ;;
  regions <-
    match describeRegions w with
    | Resolved Regions => ret (activeRegions Regions)
    | Rejected e =>
        log ("[!] Unable to retrieve region list. " ++ e) ;;
        return_ false
    end ;;
  update (set_providerRegions regions) ;;
  log "[+] Retrieved all active regions" ;;
  ret regions.

(** Lines 112-120: the distinct quota codes of the catalog, in the order of
    their first family. *)
Definition quotaCodes (families : Obj Family) : list string :=
  fold_left
    (fun codes (entry : string * Family) =>
       let code := quotaCode (snd entry) in
       if indexOf code codes =? -1 then (codes ++ [code])%list else codes)
    families [].

(** Lines 134-137, for one row that passed the filter. *)
Definition record_quota (region : string) (acc : Obj (Obj Z) * Z) (q : Quota)
  : Obj (Obj Z) * Z :=
  let '(regionQuotas, maxQuota) := acc in
  let regionQuotas' :=
    match JsObject.get region regionQuotas with
    | Some _ => regionQuotas
    | None => JsObject.set region [] regionQuotas
    end in
  let sub :=
    match JsObject.get region regionQuotas' with
    | Some o => o
    | None => []
    end in
  (JsObject.set region (JsObject.set (QuotaCode q) (Value q) sub) regionQuotas',
   if Value q >? maxQuota then Value q else maxQuota).

Definition tracked (codes : list string) (q : Quota) : bool :=
  (indexOf (QuotaCode q) codes >? -1) && (Value q >? 0).

(** Lines 129-139: the [then] callback of one region's quota promise. *)
Definition quota_callback (codes : list string) (acc : Obj (Obj Z) * Z)
  (region : string) (Quotas : list Quota) : Settled (Obj (Obj Z) * Z) :=
  Resolved (fold_left (record_quota region) (filter (tracked codes) Quotas) acc).

(** Lines 122-144. *)
Definition aggregate_quotas (w : World) (regions codes : list string)
  : M (Obj (Obj Z) * Z) :=
  forEach regions (fun region => emit (ListServiceQuotas region)) ;;
  promise_all
    (settle (quotaSettling w)
       (map (fun region => (region, listServiceQuotas w region)) regions))
    (quota_callback codes) ([], 0).

(** Lines 17-144: everything up to the first barrier. *)
Definition survey_quotas (w : World) : M (Obj (Obj Z) * Z) :=
  forEach banner log ;;
  settings <- load_settings w ;;
  check_settings settings ;;
  resolve_zone w settings ;;
  regions <- enumerate_regions w ;;
  aggregate_quotas w regions (quotaCodes (gpu_instance_families w)).

(** Lines 146-153: the only test on [maxQuota] in [generate]. *)
Definition quota_gate (maxQuota : Z) : M unit :=
  when (maxQuota =? 0)
    (log "[!] You are permitted zero GPU spot instances across all types and regions." ;;
     log "You cannot proceed without increasing your limits." ;;
     log "-> A limit of at least 4 is required for minimal capacity." ;;
     log "-> A limit of 40 is required to use the largest instances." ;;
     return_ false).

(** Lines 166-170: the [then] callback of one region's zone promise.
    [azs[region].push] throws when [azs] has no such property. *)
Definition zone_callback (azs : Obj (list string)) (region : string)
  (AvailabilityZones : list AvailabilityZone) : Settled (Obj (list string)) :=
  fold_left
    (fun (acc : Settled (Obj (list string))) (a : AvailabilityZone) =>
       match acc with
       | Resolved azs =>
           match JsObject.get region azs with
           | Some zones =>
               Resolved (JsObject.set region (zones ++ [ZoneName a])%list azs)
           | None =>
               Rejected "TypeError: Cannot read properties of undefined (reading 'push')"
           end
       | Rejected e => Rejected e
       end)
    (filter (fun a => String.eqb (State a) "available") AvailabilityZones)
    (Resolved azs).

(** Lines 159-179. *)
Definition aggregate_zones (w : World) (regionQuotas : Obj (Obj Z))
  : M (Obj (list string)) :=
  let keys := JsObject.keys regionQuotas in
  forEach keys (fun region => emit (DescribeAvailabilityZones region)) ;;
  promise_all
    (settle (zoneSettling w)
       (map (fun region => (region, describeAvailabilityZones w region)) keys))
    zone_callback
    (fold_left (fun azs region => JsObject.set region [] azs) keys []).

(** Lines 146-179: from the first barrier to the second. *)
Definition gate_and_zones (w : World) (acc : Obj (Obj Z) * Z) : M unit :=
  let '(regionQuotas, maxQuota) := acc in
  quota_gate maxQuota ;;
  update (set_quotas regionQuotas) ;;
  log "[+] Retrieved quotas." ;;
  azs <- aggregate_zones w regionQuotas ;;
  update (set_regions azs) ;;
  log "[+] Retrieved availability zones.".

(** Lines 181-192. *)
Definition check_spot_role (w : World) : M unit :=
  update (set_spotslr_exists true) ;;
  emit (GetRole "AWSServiceRoleForEC2Spot") ;;
  match getRole w "AWSServiceRoleForEC2Spot" with
  | Resolved _ => ret tt
  | Rejected _ =>
      log "[*] EC2 spot SLR is not present." ;;
      update (set_spotslr_exists false)
  end.

(** Lines 194-220: hand the snapshot to the template engine and apply. *)
Definition deploy (w : World) : M unit :=
  log (nl ++ "[*] All prerequisites finished. Generating infrastructure configurations.") ;;
  (fun m => emit (Export (validatedSettings m)) m) ;;
  emit Render ;;
  match render w with
  | Resolved _ => ret tt
  | Rejected e =>
      emit (Trace e) ;;
      log (nl ++ "[!] Failed to generate NPK configurations.") ;;
      return_ false
  end ;;
  emit WriteConfigs ;;
  log "[+] Configurations updated successfully. Preparing to deploy." ;;
  emit Apply ;;
  match apply w with
  | Resolved _ => ret tt
  | Rejected e =>
      emit (Trace e) ;;
      log (nl ++ "[!] Failed to apply configuration.") ;;
      return_ false
  end ;;
  log "[+] NPK successfully deployed. Happy hunting." ;;
  return_ true.

Definition role_and_deploy (w : World) : M unit :=
  check_spot_role w ;;
  deploy w.

(** Lines 17-179: the survey, up to the second barrier. *)
Definition survey (w : World) : M unit :=
  acc <- survey_quotas w ;;
  gate_and_zones w acc.

(** [generate()], run from a fresh [validatedSettings]. *)
Definition generate (w : World) : Completion unit * Machine :=
  (survey w ;; role_and_deploy w) start.

(** ** The quota gate of the shell variant (deploy.sh) *)

(** What the gate of deploy.sh does once [MAXQVAL] is known: it leaves the
    script ([$EXIT 1]) or goes on. *)
Inductive ShellGate : Type :=
| ShExit
| ShContinue.

(** deploy.sh, from the test [$MAXQVAL -eq 0] to the end of the quota
    branch; [key] is the line read from the terminal when the script asks.
    The lines printed on the way, among them the warning below 40 that
    changes nothing else, are left out. *)
Definition deploy_sh_quota_gate (MAXQVAL : Z) (key : string) : ShellGate :=
  if MAXQVAL =? 0 then ShExit
  else if MAXQVAL <? 4 then ShExit
  else if MAXQVAL =? 1 then
    if String.eqb key "Yes" then ShContinue else ShExit
  else ShContinue.

(** ** Sample worlds *)

Module Sample.

Definition families : Obj Family :=
  [ ("g4dn", {| quotaCode := "L-3819A6DF" |});
    ("p3", {| quotaCode := "L-7212CCBC" |});
    ("g5", {| quotaCode := "L-3819A6DF" |}) ].

Definition Regions : list Region :=
  [ {| RegionName := "us-east-1"; OptInStatus := "opt-in-not-required" |};
    {| RegionName := "ap-east-1"; OptInStatus := "not-opted-in" |};
    {| RegionName := "us-west-2"; OptInStatus := "opted-in" |} ].

Definition zones (region : string) : Settled (list AvailabilityZone) :=
  if String.eqb region "us-east-1" then
    Resolved [ {| ZoneName := "us-east-1a"; State := "available" |};
               {| ZoneName := "us-east-1b"; State := "impaired" |};
               {| ZoneName := "us-east-1c"; State := "available" |} ]
  else Rejected "UnauthorizedOperation".

(** An account whose only positive tracked quota is [top], in us-east-1. *)
Definition account (settings : Obj json) (top : Z) (role : Settled unit)
  : World :=
  {| npk_settings := Resolved settings;
     auth := Resolved tt;
     getHostedZone := fun id =>
       match id with
       | JStr "Z123" => Resolved "example.com."
       | JStr "Z456" => Resolved "example.org"
       | _ => Rejected "NoSuchHostedZone"
       end;
     describeRegions := Resolved Regions;
     gpu_instance_families := families;
     listServiceQuotas := fun region =>
       if String.eqb region "us-east-1" then
         Resolved [ {| QuotaCode := "L-3819A6DF"; Value := top |};
                    {| QuotaCode := "L-0000AAAA"; Value := 640 |};
                    {| QuotaCode := "L-7212CCBC"; Value := 0 |} ]
       else
         Resolved [ {| QuotaCode := "L-3819A6DF"; Value := 0 |} ];
     quotaSettling := [1%nat];
     describeAvailabilityZones := zones;
     zoneSettling := [];
     getRole := fun _ => role;
     render := Resolved tt;
     apply := Resolved tt |}.

Definition plain : Obj json := [ ("awsProfile", JStr "x") ].

Definition with_zone (id : string) : Obj json :=
  [ ("awsProfile", JStr "x"); ("route53Zone", JStr id) ].

Definition with_typo : Obj json :=
  [ ("awsProfile", JStr "x"); ("useSAML", JBool true);
    ("route53Zone", JStr "Z123"); ("dnsNames", JNull) ].

End Sample.

(** ** Vocabulary of the statements *)

(** The machine after some more events. *)
Definition emitting (t : list Event) (m : Machine) : Machine :=
  {| validatedSettings := validatedSettings m; trace := (trace m ++ t)%list |}.

(** The remote capability probes. *)
Definition is_probe (e : Event) : bool :=
  match e with
  | GetHostedZone _ | DescribeRegions | ListServiceQuotas _
  | DescribeAvailabilityZones _ | GetRole _ => true
  | _ => false
  end.

(** What lines 37-39 do to the environment. *)
Definition profile_events (settings : Obj json) : list Event :=
  match JsObject.get "awsProfile" settings with
  | Some profile => if truthy profile then [SetAwsProfile profile] else []
  | None => []
  end.

(** Events that belong to the part of the script before the first barrier. *)
Definition early_event (e : Event) : bool :=
  match e with
  | Log _ | SetAwsProfile _ | Auth | GetHostedZone _ | DescribeRegions
  | ListServiceQuotas _ => true
  | _ => false
  end.

(** Calls into the template engine. *)
Definition is_sink (e : Event) : bool :=
  match e with
  | Export _ | Render | WriteConfigs | Apply => true
  | _ => false
  end.

(** [regionQuotas[region][code]], when both properties exist. *)
Definition lookup (regionQuotas : Obj (Obj Z)) (region code : string)
  : option Z :=
  match JsObject.get region regionQuotas with
  | Some sub => JsObject.get code sub
  | None => None
  end.

(** The values of the rows with a catalog code that the regions [P]
    returned. *)
Definition observed (w : World) (P : list string) : list Z :=
  flat_map
    (fun region =>
       match listServiceQuotas w region with
       | Resolved Quotas =>
           map Value
             (filter (fun q =>
                indexOf (QuotaCode q) (quotaCodes (gpu_instance_families w))
                >? -1) Quotas)
       | Rejected _ => []
       end) P.

(** The largest element of a list, and 0 when none is positive. *)
Definition max_or_zero (l : list Z) : Z := fold_right Z.max 0 l.

(** The callbacks of resolved promises, run one after the other. *)
Fixpoint callbacks {A S} (callback : S -> string -> A -> Settled S)
  (datas : list (string * A)) (s : S) : Settled S :=
  match datas with
  | [] => Resolved s
  | (region, data) :: r =>
      match callback s region data with
      | Resolved s' => callbacks callback r s'
      | Rejected e => Rejected e
      end
  end.

(** The rows that pass the filter of line 132, each with its region, in the
    order in which the callbacks see them. *)
Definition rows (codes : list string) (datas : list (string * list Quota))
  : list (string * Quota) :=
  flat_map (fun rd => map (pair (fst rd)) (filter (tracked codes) (snd rd)))
    datas.

Definition record_row (acc : Obj (Obj Z) * Z) (row : string * Quota)
  : Obj (Obj Z) * Z :=
  record_quota (fst row) acc (snd row).

(** Whether a promise resolved. *)
Definition resolved {A} (p : Settled A) : bool :=
  match p with
  | Resolved _ => true
  | Rejected _ => false
  end.

(** A computation [respects] an invariant [I] of [validatedSettings] and a
    predicate [P] on events when, started where [I] holds, it ends where [I]
    holds and appends only events in [P], however it ends. *)
Definition stepR (I : ValidatedSettings -> Prop) (P : Event -> Prop)
  (m m' : Machine) : Prop :=
  I (validatedSettings m) ->
  I (validatedSettings m') /\
  exists t, trace m' = (trace m ++ t)%list /\ Forall P t.

Definition respects (I : ValidatedSettings -> Prop) (P : Event -> Prop)
  {A} (c : M A) : Prop :=
  forall m, stepR I P m (snd (c m)).

(** The lines printed when [maxQuota] is 0. *)
Definition zero_quota_lines : list Event :=
  [ Log "[!] You are permitted zero GPU spot instances across all types and regions.";
    Log "You cannot proceed without increasing your limits.";
    Log "-> A limit of at least 4 is required for minimal capacity.";
    Log "-> A limit of 40 is required to use the largest instances." ].

(** The machine once the quotas are stored and the zone probes issued. *)
Definition zones_requested (regionQuotas : Obj (Obj Z)) (m : Machine)
  : Machine :=
  emitting
    (Log "[+] Retrieved quotas." ::
     map DescribeAvailabilityZones (JsObject.keys regionQuotas))
    {| validatedSettings := set_quotas regionQuotas (validatedSettings m);
       trace := trace m |}.

(** The machine once the zones are stored. *)
Definition zones_stored (azs : Obj (list string)) (m : Machine) : Machine :=
  emitting [Log "[+] Retrieved availability zones."]
    {| validatedSettings := set_regions azs (validatedSettings m);
       trace := trace m |}.

(** The zone map before any zone promise settles (line 164). *)
Definition empty_zones (keys : list string) : Obj (list string) :=
  fold_left (fun azs region => JsObject.set region [] azs) keys [].

(** What lines 181-192 add to the trace. *)
Definition role_events (w : World) : list Event :=
  GetRole "AWSServiceRoleForEC2Spot" ::
  (if resolved (getRole w "AWSServiceRoleForEC2Spot") then []
   else [Log "[*] EC2 spot SLR is not present."]).

(** What lines 194-220 add to the trace when [snapshot] is exported. *)
Definition deploy_events (w : World) (snapshot : ValidatedSettings)
  : list Event :=
  [ Log (nl ++ "[*] All prerequisites finished. Generating infrastructure configurations.");
    Export snapshot; Render ] ++
  match render w with
  | Rejected e =>
      [ Trace e; Log (nl ++ "[!] Failed to generate NPK configurations.") ]
  | Resolved _ =>
      [ WriteConfigs;
        Log "[+] Configurations updated successfully. Preparing to deploy.";
        Apply ] ++
      match apply w with
      | Rejected e => [ Trace e; Log (nl ++ "[!] Failed to apply configuration.") ]
      | Resolved _ => [ Log "[+] NPK successfully deployed. Happy hunting." ]
      end
  end.

(** ** The entry point *)

(** Lines 223-228: what [showHelpBanner] prints before [process.exit(1)]. *)
Definition help_banner : list string :=
  [ "[!] Deployment failed. If you're having trouble, hop in Discord for help.";
    "--> Porchetta Industries Discord: https://discord.gg/k5PQnqSNDF";
    EmptyString ].

(** How the process ends: [process.exit], nothing left to do after the
    anonymous function resolved, or the rejection of its promise, which
    nothing handles. *)
Inductive ProcessEnd : Type :=
| Exit (status : Z)
| Drained
| UnhandledRejection (e : string).

(** Lines 230-233.  A [generate] that fell off its end would give
    [undefined], which is falsy. *)
Definition main (w : World) : ProcessEnd * list Event :=
  let '(c, m) := generate w in
  match c with
  | Return true => (Drained, trace m)
  | Return false => (Exit 1, (trace m ++ map Log help_banner)%list)
  | Next _ => (Exit 1, (trace m ++ map Log help_banner)%list)
  | Throw e => (UnhandledRejection e, trace m)
  end.

(** ** Accounts with an outage *)

Module Outage.

Definition settings_unreadable (e : string) (w : World) : World :=
  {| npk_settings := Rejected e;
     auth := auth w;
     getHostedZone := getHostedZone w;
     describeRegions := describeRegions w;
     gpu_instance_families := gpu_instance_families w;
     listServiceQuotas := listServiceQuotas w;
     quotaSettling := quotaSettling w;
     describeAvailabilityZones := describeAvailabilityZones w;
     zoneSettling := zoneSettling w;
     getRole := getRole w;
     render := render w;
     apply := apply w |}.

Definition auth_rejected (e : string) (w : World) : World :=
  {| npk_settings := npk_settings w;
     auth := Rejected e;
     getHostedZone := getHostedZone w;
     describeRegions := describeRegions w;
     gpu_instance_families := gpu_instance_families w;
     listServiceQuotas := listServiceQuotas w;
     quotaSettling := quotaSettling w;
     describeAvailabilityZones := describeAvailabilityZones w;
     zoneSettling := zoneSettling w;
     getRole := getRole w;
     render := render w;
     apply := apply w |}.

Definition regions_unavailable (e : string) (w : World) : World :=
  {| npk_settings := npk_settings w;
     auth := auth w;
     getHostedZone := getHostedZone w;
     describeRegions := Rejected e;
     gpu_instance_families := gpu_instance_families w;
     listServiceQuotas := listServiceQuotas w;
     quotaSettling := quotaSettling w;
     describeAvailabilityZones := describeAvailabilityZones w;
     zoneSettling := zoneSettling w;
     getRole := getRole w;
     render := render w;
     apply := apply w |}.

Definition quotas_unavailable (region e : string) (w : World) : World :=
  {| npk_settings := npk_settings w;
     auth := auth w;
     getHostedZone := getHostedZone w;
     describeRegions := describeRegions w;
     gpu_instance_families := gpu_instance_families w;
     listServiceQuotas := fun r =>
       if String.eqb r region then Rejected e else listServiceQuotas w r;
     quotaSettling := quotaSettling w;
     describeAvailabilityZones := describeAvailabilityZones w;
     zoneSettling := zoneSettling w;
     getRole := getRole w;
     render := render w;
     apply := apply w |}.

Definition zones_unavailable (region e : string) (w : World) : World :=
  {| npk_settings := npk_settings w;
     auth := auth w;
     getHostedZone := getHostedZone w;
     describeRegions := describeRegions w;
     gpu_instance_families := gpu_instance_families w;
     listServiceQuotas := listServiceQuotas w;
     quotaSettling := quotaSettling w;
     describeAvailabilityZones := fun r =>
       if String.eqb r region then Rejected e
       else describeAvailabilityZones w r;
     zoneSettling := zoneSettling w;
     getRole := getRole w;
     render := render w;
     apply := apply w |}.

Definition render_fails (e : string) (w : World) : World :=
  {| npk_settings := npk_settings w;
     auth := auth w;
     getHostedZone := getHostedZone w;
     describeRegions := describeRegions w;
     gpu_instance_families := gpu_instance_families w;
     listServiceQuotas := listServiceQuotas w;
     quotaSettling := quotaSettling w;
     describeAvailabilityZones := describeAvailabilityZones w;
     zoneSettling := zoneSettling w;
     getRole := getRole w;
     render := Rejected e;
     apply := apply w |}.

(** Settings whose [route53Zone] is the empty string. *)
Definition falsy_zone : Obj json :=
  [ ("awsProfile", JStr "x"); ("route53Zone", JStr EmptyString) ].

End Outage.

(** ** More vocabulary *)

(** Lines 17-107: everything up to the list of regions. *)
Definition survey_regions (w : World) : M (list string) :=
  forEach banner log ;;
  settings <- load_settings w ;;
  check_settings settings ;;
  resolve_zone w settings ;;
  enumerate_regions w.

(** Lines 17-87: everything up to the hosted zone. *)
Definition survey_zone (w : World) : M unit :=
  forEach banner log ;;
  settings <- load_settings w ;;
  check_settings settings ;;
  resolve_zone w settings.

(** Lines 109-220: what follows the list of regions. *)
Definition after_regions (w : World) (P : list string) : M unit :=
  acc <- aggregate_quotas w P (quotaCodes (gpu_instance_families w)) ;;
  gate_and_zones w acc ;;
  role_and_deploy w.

(** Lines 89-220: what follows the hosted zone. *)
Definition after_zone (w : World) : M unit :=
  P <- enumerate_regions w ;;
  after_regions w P.

(** Events that reach neither the provider nor the template engine. *)
Definition quiet (e : Event) : bool :=
  match e with
  | Log _ | SetAwsProfile _ | Auth => true
  | _ => false
  end.

(** The machine once the settings are read and [sonnetry.auth()] is called. *)
Definition authenticated (settings : Obj json) : Machine :=
  emitting (map Log banner ++ profile_events settings ++ [Auth]) start.

(** Events of the part of the script before the list of regions. *)
Definition zone_stage_event (e : Event) : bool :=
  match e with
  | Log _ | SetAwsProfile _ | Auth | GetHostedZone _ => true
  | _ => false
  end.

(** The test of line 97, spelled out. *)
Definition opted_in (R : Region) : bool :=
  String.eqb (OptInStatus R) "opt-in-not-required" ||
  String.eqb (OptInStatus R) "opted-in".

(** What one row does to the entry of region [r] and code [c]. *)
Definition pick_row (r c : string) (o : option Z) (row : string * Quota)
  : option Z :=
  if String.eqb r (fst row) && String.eqb (QuotaCode (snd row)) c
  then Some (Value (snd row)) else o.

(** A computation that executes no [return] other than [return false]. *)
Definition returns_only_false {A} (c : M A) : Prop :=
  forall m b m', c m = (Return b, m') -> b = false.

(** The hosted zone the settings ask for, if any (line 70). *)
Definition requested_zone (settings : Obj json) : option json :=
  match JsObject.get "route53Zone" settings with
  | Some id => if truthy id then Some id else None
  | None => None
  end.

Definition is_quota_probe (e : Event) : bool :=
  match e with
  | ListServiceQuotas _ => true
  | _ => false
  end.

(** The value of the last row with code [c], if any, after [acc]. *)
Definition last_value_from (acc : option Z) (c : string) (Quotas : list Quota)
  : option Z :=
  fold_left
    (fun acc q => if String.eqb (QuotaCode q) c then Some (Value q) else acc)
    Quotas acc.

Definition last_value (c : string) (Quotas : list Quota) : option Z :=
  last_value_from None c Quotas.

(** What a region's answer leaves in [regionQuotas] for the code [c]. *)
Definition expected_quota (w : World) (r c : string) : option Z :=
  match listServiceQuotas w r with
  | Resolved Quotas =>
      last_value c
        (filter (tracked (quotaCodes (gpu_instance_families w))) Quotas)
  | Rejected _ => None
  end.

(** The names of the zones that are available, in the order of the answer. *)
Definition zone_names (AvailabilityZones : list AvailabilityZone)
  : list string :=
  map ZoneName
    (filter (fun a => String.eqb (State a) "available") AvailabilityZones).



(** * Properties *)

(** ** Library functions *)

Lemma indexOf_from_range (x : string) (l : list string) (i : Z) :
  (In x l -> i <= indexOf_from i x l) /\
  (~ In x l -> indexOf_from i x l = -1).
Proof.
  revert i; induction l as [|y r IH]; intros i; simpl.
  - split; [intros [] | reflexivity].
  - destruct (String.eqb_spec y x) as [E|N].
    + split; [lia | intros H; exfalso; apply H; now left].
    + destruct (IH (i + 1)) as [Hin Hout]. split.
      * intros [E|H]; [congruence | specialize (Hin H); lia].
      * intros H. apply Hout. intros H'. apply H. now right.
Qed.

Lemma indexOf_found (x : string) (l : list string) :
  (indexOf x l >? -1) = true <-> In x l.
Proof.
  unfold indexOf. destruct (indexOf_from_range x l 0) as [Hin Hout].
  destruct (in_dec string_dec x l) as [H|H].
  - specialize (Hin H). split; [easy | intros _; apply Z.gtb_lt; lia].
  - rewrite (Hout H). split; [discriminate | easy].
Qed.

Lemma indexOf_missing (x : string) (l : list string) :
  (indexOf x l <? 0) = true <-> ~ In x l.
Proof.
  unfold indexOf. destruct (indexOf_from_range x l 0) as [Hin Hout].
  destruct (in_dec string_dec x l) as [H|H].
  - specialize (Hin H). split; [intros L; apply Z.ltb_lt in L; lia | easy].
  - rewrite (Hout H). split; [easy | reflexivity].
Qed.

Lemma indexOf_minus_one (x : string) (l : list string) :
  (indexOf x l =? -1) = true <-> ~ In x l.
Proof.
  unfold indexOf. destruct (indexOf_from_range x l 0) as [Hin Hout].
  destruct (in_dec string_dec x l) as [H|H].
  - specialize (Hin H). split; [intros L; apply Z.eqb_eq in L; lia | easy].
  - rewrite (Hout H). split; [easy | reflexivity].
Qed.

Lemma substring_prefix (s t : string) :
  substring 0 (String.length s) (s ++ t) = s.
Proof.
  induction s as [|c s IH]; simpl.
  - destruct t; reflexivity.
  - now rewrite IH.
Qed.

Lemma length_snoc (s : string) (c : ascii) :
  String.length (s ++ String c EmptyString) = S (String.length s).
Proof. induction s as [|d s IH]; simpl; [reflexivity | now rewrite IH]. Qed.

(** [slice(0, -1)] drops the last character, whatever it is. *)
Lemma slice_drop_last (s : string) (c : ascii) :
  slice (s ++ String c EmptyString) 0 (-1) = s.
Proof.
  unfold slice. rewrite length_snoc.
  replace (0 <? 0) with false by reflexivity.
  replace (-1 <? 0) with true by reflexivity.
  replace (Z.to_nat (Z.min 0 (Z.of_nat (S (String.length s))))) with O by lia.
  replace (Z.to_nat _) with (String.length s) by lia.
  apply substring_prefix.
Qed.

Lemma slice_empty : slice EmptyString 0 (-1) = EmptyString.
Proof. reflexivity. Qed.

Module JsObjectFacts.
Import JsObject.

Section Facts.
Context {V : Type}.
Implicit Types (o : t V) (k : string) (v : V).

Lemma get_set_same o k v : get k (set k v o) = Some v.
Proof.
  induction o as [|[k' v'] r IH]; simpl.
  - now rewrite String.eqb_refl.
  - destruct (String.eqb_spec k' k) as [E|N]; simpl.
    + now rewrite String.eqb_refl.
    + destruct (String.eqb_spec k' k); [contradiction | exact IH].
Qed.

Lemma get_set_other o k k' v : k <> k' -> get k' (set k v o) = get k' o.
Proof.
  intros N. induction o as [|[k0 v0] r IH]; simpl.
  - destruct (String.eqb_spec k k'); [contradiction | reflexivity].
  - destruct (String.eqb_spec k0 k) as [E|N0]; simpl.
    + subst k0. destruct (String.eqb_spec k k'); [contradiction | reflexivity].
    + destruct (String.eqb_spec k0 k'); [reflexivity | exact IH].
Qed.

Lemma in_keys_set o k k' v :
  In k' (keys (set k v o)) <-> k' = k \/ In k' (keys o).
Proof.
  unfold keys. induction o as [|[k0 v0] r IH]; simpl.
  - intuition.
  - destruct (String.eqb_spec k0 k) as [E|N]; simpl.
    + subst k0. intuition.
    + rewrite IH. intuition.
Qed.

Lemma keys_set_present o k v : In k (keys o) -> keys (set k v o) = keys o.
Proof.
  unfold keys. induction o as [|[k0 v0] r IH]; simpl.
  - intros [].
  - destruct (String.eqb_spec k0 k) as [E|N]; simpl.
    + now subst k0.
    + intros [E|H]; [congruence | now rewrite IH].
Qed.

Lemma keys_set_absent o k v :
  ~ In k (keys o) -> keys (set k v o) = (keys o ++ [k])%list.
Proof.
  unfold keys. induction o as [|[k0 v0] r IH]; simpl.
  - reflexivity.
  - destruct (String.eqb_spec k0 k) as [E|N]; simpl.
    + intros H. exfalso. apply H. now left.
    + intros H. rewrite IH; [reflexivity | intros H'; apply H; now right].
Qed.

Lemma in_keys_get o k : In k (keys o) <-> exists v, get k o = Some v.
Proof.
  unfold keys. induction o as [|[k0 v0] r IH]; simpl.
  - split; [intros [] | intros [v H]; discriminate].
  - destruct (String.eqb_spec k0 k) as [E|N].
    + split; [intros _; now exists v0 | intros _; now left].
    + rewrite <- IH. intuition.
Qed.

Lemma NoDup_keys_set o k v : NoDup (keys o) -> NoDup (keys (set k v o)).
Proof.
  intros H. destruct (in_dec string_dec k (keys o)) as [I|I].
  - now rewrite keys_set_present.
  - rewrite keys_set_absent by assumption.
    apply NoDup_app; [assumption | repeat constructor; intros [] | ].
    intros x Hx [E|[]]. now subst.
Qed.

End Facts.
End JsObjectFacts.

(** ** Settling orders *)

Lemma pick_Permutation {A} (n : nat) (x : A) (l : list A) :
  Permutation (x :: l) (fst (pick n x l) :: snd (pick n x l)) /\
  List.length (snd (pick n x l)) = List.length l.
Proof.
  revert x l; induction n as [|n IH]; intros x l; simpl.
  - split; [apply Permutation_refl | reflexivity].
  - destruct l as [|y r]; simpl.
    + split; [apply Permutation_refl | reflexivity].
    + destruct (IH y r) as [HP HL].
      destruct (pick n y r) as [z rest]; simpl in *. split.
      * apply Permutation_trans with (x :: z :: rest).
        -- now apply perm_skip.
        -- apply perm_swap.
      * now rewrite HL.
Qed.

Lemma settle_fuel_Permutation {A} (fuel : nat) (picks : list nat) (l : list A) :
  fuel = List.length l -> Permutation l (settle_fuel fuel picks l).
Proof.
  revert picks l; induction fuel as [|f IH]; intros picks l E.
  - destruct l; [apply Permutation_refl | discriminate].
  - destruct l as [|x l]; [discriminate|]. simpl.
    destruct (pick_Permutation (hd O picks) x l) as [HP HL].
    destruct (pick (hd O picks) x l) as [z rest]; simpl in *.
    apply Permutation_trans with (z :: rest); [assumption|].
    apply perm_skip, IH. injection E as E. now rewrite HL.
Qed.

(** Whatever the picks, the promises settle once each. *)
Lemma settle_Permutation {A} (picks : list nat) (l : list A) :
  Permutation l (settle picks l).
Proof. now apply settle_fuel_Permutation. Qed.

Lemma pick_any {A} (l : list A) (x z : A) :
  In z (x :: l) -> exists n, fst (pick n x l) = z.
Proof.
  revert x; induction l as [|y r IH]; intros x [E|H].
  - now exists O.
  - destruct H.
  - now exists O.
  - destruct (IH y H) as [n Hn]. exists (S n). simpl.
    destruct (pick n y r); exact Hn.
Qed.

(** And every order is the outcome of some picks. *)
Lemma settle_any_order {A} (l l' : list A) :
  Permutation l l' -> exists picks, settle picks l = l'.
Proof.
  revert l; induction l' as [|z l'' IH]; intros l HP.
  - apply Permutation_sym, Permutation_nil in HP. subst. now exists [].
  - destruct l as [|x l0].
    { apply Permutation_nil in HP. discriminate. }
    assert (Hz : In z (x :: l0)).
    { apply Permutation_in with (z :: l''); [now apply Permutation_sym | now left]. }
    destruct (pick_any l0 x z Hz) as [n Hn].
    destruct (pick_Permutation n x l0) as [HP' HL].
    rewrite Hn in HP'.
    assert (HR : Permutation (snd (pick n x l0)) l'').
    { apply Permutation_cons_inv with z.
      apply Permutation_trans with (x :: l0);
        [now apply Permutation_sym | assumption]. }
    destruct (IH _ HR) as [picks Hpicks].
    exists (n :: picks). unfold settle in *. simpl.
    destruct (pick n x l0) as [z' rest]; simpl in *. subst z'.
    rewrite <- HL. now rewrite Hpicks.
Qed.

(** ** Running the monad *)

Lemma bind_Next {A B} (c : M A) (k : A -> M B) m b m' :
  bind c k m = (Next b, m') ->
  exists a m1, c m = (Next a, m1) /\ k a m1 = (Next b, m').
Proof.
  unfold bind. destruct (c m) as [[a|r|e] m1]; intros H;
    [now exists a, m1 | discriminate | discriminate].
Qed.

Lemma bind_run {A B} {c : M A} (k : A -> M B) {m a m1} :
  c m = (Next a, m1) -> bind c k m = k a m1.
Proof. unfold bind. now intros ->. Qed.

Lemma bind_Return {A B} {c : M A} (k : A -> M B) {m b m1} :
  c m = (Return b, m1) -> bind c k m = (Return b, m1).
Proof. unfold bind. now intros ->. Qed.

Lemma bind_Throw {A B} {c : M A} (k : A -> M B) {m e m1} :
  c m = (Throw e, m1) -> bind c k m = (Throw e, m1).
Proof. unfold bind. now intros ->. Qed.

Lemma emitting_nil m : emitting [] m = m.
Proof. destruct m. unfold emitting. simpl. now rewrite app_nil_r. Qed.

Lemma emitting_app t u m : emitting u (emitting t m) = emitting (t ++ u) m.
Proof. unfold emitting. simpl. now rewrite app_assoc. Qed.

Lemma forEach_emit {A} (l : list A) (f : A -> Event) m :
  forEach l (fun x => emit (f x)) m = (Next tt, emitting (map f l) m).
Proof.
  revert m; induction l as [|x r IH]; intros m; simpl.
  - now rewrite emitting_nil.
  - unfold bind at 1. unfold emit at 1.
    rewrite IH. unfold emitting. simpl. now rewrite <- app_assoc.
Qed.

Section Respects.

Variable I : ValidatedSettings -> Prop.
Variable P : Event -> Prop.

Lemma stepR_refl m : stepR I P m m.
Proof. intros H. split; [assumption|]. exists []. now rewrite app_nil_r. Qed.

Lemma stepR_trans a b c : stepR I P a b -> stepR I P b c -> stepR I P a c.
Proof.
  intros Hab Hbc Ha. destruct (Hab Ha) as [Hb [t [Et Ft]]].
  destruct (Hbc Hb) as [Hc [u [Eu Fu]]]. split; [assumption|].
  exists (t ++ u)%list. split.
  - now rewrite Eu, Et, app_assoc.
  - apply Forall_app. now split.
Qed.

Lemma respects_ret {A} (a : A) : respects I P (ret a).
Proof. intros m. apply stepR_refl. Qed.

Lemma respects_return {A} (b : bool) : respects I P (@return_ A b).
Proof. intros m. apply stepR_refl. Qed.

Lemma respects_throw {A} (e : string) : respects I P (@throw A e).
Proof. intros m. apply stepR_refl. Qed.

Lemma respects_bind {A B} (c : M A) (k : A -> M B) :
  respects I P c -> (forall a, respects I P (k a)) -> respects I P (bind c k).
Proof.
  intros Hc Hk m. unfold bind. specialize (Hc m).
  destruct (c m) as [[a|b|e] m1]; simpl in *; try assumption.
  apply stepR_trans with m1; [assumption | apply Hk].
Qed.

Lemma respects_emit (e : Event) : P e -> respects I P (emit e).
Proof.
  intros He m Hm. simpl. split; [assumption|]. exists [e]. now split; [|constructor].
Qed.

Lemma respects_export :
  (forall v, I v -> P (Export v)) ->
  respects I P (fun m => emit (Export (validatedSettings m)) m).
Proof.
  intros He m Hm. simpl. split; [assumption|].
  exists [Export (validatedSettings m)]. split; [reflexivity|].
  constructor; [now apply He | constructor].
Qed.

Lemma respects_update (f : ValidatedSettings -> ValidatedSettings) :
  (forall v, I v -> I (f v)) -> respects I P (update f).
Proof.
  intros Hf m Hm. simpl. split; [now apply Hf|]. exists [].
  now rewrite app_nil_r.
Qed.

Lemma respects_when (b : bool) (c : M unit) :
  respects I P c -> respects I P (when b c).
Proof. destruct b; simpl; [easy | intros _; apply respects_ret]. Qed.

Lemma respects_forEach {A} (l : list A) (f : A -> M unit) :
  (forall x, respects I P (f x)) -> respects I P (forEach l f).
Proof.
  intros Hf. induction l as [|x r IH]; simpl.
  - apply respects_ret.
  - apply respects_bind; [apply Hf | intros _; exact IH].
Qed.

Lemma respects_promise_all {A S} (l : list (string * Settled A))
  (callback : S -> string -> A -> Settled S) (s : S) :
  respects I P (promise_all l callback s).
Proof.
  revert s; induction l as [|[region [data|e]] r IH]; intros s; simpl.
  - apply respects_ret.
  - destruct (callback s region data); [apply IH | apply respects_throw].
  - apply respects_throw.
Qed.

End Respects.

Ltac respects_step :=
  first
    [ apply respects_bind; [|intros ?]
    | apply respects_ret
    | apply respects_return
    | apply respects_throw
    | apply respects_when
    | apply respects_forEach; intros ?
    | apply respects_promise_all
    | apply respects_export
    | apply respects_emit
    | apply respects_update
    | match goal with
      | |- respects _ _ (match ?x with _ => _ end) => destruct x
      | |- respects _ _ (let '(_, _) := ?x in _) => destruct x
      end ].

Ltac respects_all := unfold log; repeat respects_step.

(** ** The stages, one by one *)

Lemma forEach_log (l : list string) m :
  forEach l log m = (Next tt, emitting (map Log l) m).
Proof. exact (forEach_emit l Log m). Qed.

Lemma load_settings_resolved w settings m :
  npk_settings w = Resolved settings ->
  load_settings w m =
    (match auth w with Resolved _ => Next settings | Rejected e => Throw e end,
     emitting (profile_events settings ++ [Auth]) m).
Proof.
  intros E. unfold load_settings, profile_events. rewrite E.
  unfold bind at 1. unfold ret at 1.
  destruct (JsObject.get "awsProfile" settings) as [p|]; [destruct (truthy p)|];
    unfold bind, when, emit, ret, throw, emitting; simpl;
    destruct (auth w); simpl; rewrite <- ?app_assoc; reflexivity.
Qed.

Lemma check_settings_bad settings m :
  badSettings settings <> [] ->
  check_settings settings m =
    (Return false,
     emitting (map (fun e => Log (invalid_setting_line e)) (badSettings settings)
               ++ [Log "[!] Fix your settings, then try again."]) m).
Proof.
  intros H. unfold check_settings, log.
  pose proof (forEach_emit (badSettings settings)
                (fun e => Log (invalid_setting_line e)) m) as HF.
  cbv beta in HF. rewrite (bind_run _ HF).
  destruct (badSettings settings) as [|k r]; [contradiction|].
  replace (0 <? Z.of_nat (List.length (k :: r))) with true
    by (symmetry; apply Z.ltb_lt; simpl; lia).
  unfold when, bind, log, emit, return_. simpl. unfold emitting. simpl.
  now rewrite <- app_assoc.
Qed.

Lemma check_settings_good settings m :
  badSettings settings = [] -> check_settings settings m = (Next tt, m).
Proof.
  intros H. unfold check_settings. rewrite H. simpl.
  unfold bind, ret, when. reflexivity.
Qed.

Lemma badSettings_spec settings k :
  In k (badSettings settings) <->
  In k (JsObject.keys settings) /\ ~ In k allowedSettings.
Proof.
  unfold badSettings. rewrite filter_In. now rewrite indexOf_missing.
Qed.

Lemma generate_stops_in_survey_quotas w b m :
  survey_quotas w start = (Return b, m) -> generate w = (Return b, m).
Proof.
  intros H. unfold generate, survey.
  apply bind_Return. now apply bind_Return.
Qed.

Lemma generate_throws_in_survey_quotas w e m :
  survey_quotas w start = (Throw e, m) -> generate w = (Throw e, m).
Proof.
  intros H. unfold generate, survey.
  apply bind_Throw. now apply bind_Throw.
Qed.

Lemma banner_no_probe : Forall (fun e => is_probe e = false) (map Log banner).
Proof. repeat constructor. Qed.

Lemma profile_events_no_probe settings :
  Forall (fun e => is_probe e = false) (profile_events settings).
Proof.
  unfold profile_events.
  destruct (JsObject.get "awsProfile" settings) as [p|]; [destruct (truthy p)|];
    repeat constructor.
Qed.

(** ** Settings validation *)

(** C4.  A settings document with a key outside the allow-list stops the
    run: [generate] returns [false] after printing one line per offending
    key (the keys of the document that are not in the allow-list, in the
    order of the document) and the closing line, and no remote probe
    (hosted zone, regions, quotas, zones, role) is issued, nor anything
    handed to the template engine. *)
Theorem invalid_settings_fail_closed (w : World) (settings : Obj json) :
  npk_settings w = Resolved settings ->
  (exists k, In k (JsObject.keys settings) /\ ~ In k allowedSettings) ->
  (forall k, In k (badSettings settings) <->
             In k (JsObject.keys settings) /\ ~ In k allowedSettings) /\
  Forall (fun e => is_probe e = false) (trace (snd (generate w))) /\
  (forall snap, ~ In (Export snap) (trace (snd (generate w)))) /\
  validatedSettings (snd (generate w)) = emptySettings /\
  (forall u, auth w = Resolved u ->
     generate w =
       (Return false,
        emitting
          (map Log banner ++ profile_events settings ++ [Auth] ++
           map (fun k => Log (invalid_setting_line k)) (badSettings settings) ++
           [Log "[!] Fix your settings, then try again."]) start)).
Proof.
  intros Hs [k Hk].
  assert (Hbad : badSettings settings <> []).
  { apply badSettings_spec in Hk. intros E. rewrite E in Hk. destruct Hk. }
  assert (Hrun : generate w =
    match auth w with
    | Resolved _ =>
        (Return false,
         emitting
           (map Log banner ++ profile_events settings ++ [Auth] ++
            map (fun k => Log (invalid_setting_line k)) (badSettings settings) ++
            [Log "[!] Fix your settings, then try again."]) start)
    | Rejected e =>
        (Throw e,
         emitting (map Log banner ++ profile_events settings ++ [Auth]) start)
    end).
  { pose proof (load_settings_resolved w settings (emitting (map Log banner) start) Hs) as HL.
    destruct (auth w) as [u|e].
    - apply generate_stops_in_survey_quotas. unfold survey_quotas.
      rewrite (bind_run _ (forEach_log banner start)).
      rewrite (bind_run _ HL).
      rewrite (bind_Return _ (check_settings_bad _ _ Hbad)).
      rewrite !emitting_app. now rewrite <- !app_assoc.
    - apply generate_throws_in_survey_quotas. unfold survey_quotas.
      rewrite (bind_run _ (forEach_log banner start)).
      rewrite (bind_Throw _ HL).
      now rewrite !emitting_app. }
  split; [intros k'; apply badSettings_spec|].
  assert (Hlines : forall P : Event -> Prop,
             (forall s, P (Log s)) ->
             Forall P (map (fun k => Log (invalid_setting_line k))
                         (badSettings settings))).
  { intros P HP. apply Forall_forall. intros e He.
    apply in_map_iff in He. destruct He as [x [<- _]]. apply HP. }
  split; [|split; [|split]].
  - rewrite Hrun. destruct (auth w); cbn [snd trace emitting start];
      repeat (apply Forall_app; split);
      try (apply Hlines; reflexivity);
      auto using banner_no_probe, profile_events_no_probe;
      repeat constructor.
  - intros snap. rewrite Hrun.
    assert (Hb : ~ In (Export snap) (map Log banner)).
    { intros H. apply in_map_iff in H. destruct H as [x [H _]]. discriminate. }
    assert (Hp : ~ In (Export snap) (profile_events settings)).
    { unfold profile_events.
      destruct (JsObject.get "awsProfile" settings) as [p|];
        [destruct (truthy p)|]; simpl; intuition discriminate. }
    assert (Hl : ~ In (Export snap)
                   (map (fun k => Log (invalid_setting_line k))
                      (badSettings settings))).
    { intros H. apply in_map_iff in H. destruct H as [x [H _]]. discriminate. }
    destruct (auth w); cbn [snd trace emitting start]; rewrite !in_app_iff;
      intros H; repeat (destruct H as [H|H]); try contradiction;
      simpl in H; intuition discriminate.
  - rewrite Hrun. destruct (auth w); reflexivity.
  - intros u Hu. rewrite Hrun, Hu. reflexivity.
Qed.

(** ** Hosted zone name *)

Lemma bind_assoc {A B C} (c : M A) (k : A -> M B) (h : B -> M C) m :
  bind (bind c k) h m = bind c (fun a => bind (k a) h) m.
Proof. unfold bind. destruct (c m) as [[a|b|e] m1]; reflexivity. Qed.

(** Run the first statement of a sequence whose outcome [H] gives. *)
Ltac run_next H :=
  rewrite ?bind_assoc; rewrite (bind_run _ H); cbv beta.

Lemma resolve_zone_resolved w settings id Name m :
  JsObject.get "route53Zone" settings = Some id ->
  truthy id = true ->
  getHostedZone w id = Resolved Name ->
  resolve_zone w settings m =
    (Next tt,
     emitting [GetHostedZone id; Log "[+] Validated route53Zone"]
       {| validatedSettings :=
            set_dnsBaseName (slice Name 0 (-1)) (validatedSettings m);
          trace := trace m |}).
Proof.
  intros Hid Ht Hz. unfold resolve_zone. rewrite Hid, Ht. simpl.
  unfold bind at 1. unfold emit at 1. rewrite Hz.
  unfold bind, update, log, emit, emitting. simpl.
  now rewrite <- app_assoc.
Qed.

Lemma no_export_before_zone settings snap :
  ~ In (Export snap) (map Log banner ++ profile_events settings ++ [Auth]).
Proof.
  rewrite !in_app_iff. intros [H|[H|H]].
  - apply in_map_iff in H. destruct H as [x [H _]]. discriminate.
  - unfold profile_events in H.
    destruct (JsObject.get "awsProfile" settings) as [p|];
      [destruct (truthy p)|]; simpl in H; intuition discriminate.
  - simpl in H. intuition discriminate.
Qed.

(** Once the zone name is stored, nothing overwrites it, and the snapshot
    handed to the template engine carries it. *)
Lemma dnsBaseName_stored (w : World) (settings : Obj json) (id : json)
  (Name : string) (u : unit) :
  npk_settings w = Resolved settings ->
  auth w = Resolved u ->
  badSettings settings = [] ->
  JsObject.get "route53Zone" settings = Some id ->
  truthy id = true ->
  getHostedZone w id = Resolved Name ->
  dnsBaseName (validatedSettings (snd (generate w))) = Some (slice Name 0 (-1)) /\
  (forall snap, In (Export snap) (trace (snd (generate w))) ->
                dnsBaseName snap = Some (slice Name 0 (-1))).
Proof.
  intros Hs Ha Hgood Hid Ht Hz.
  unfold generate, survey, survey_quotas.
  run_next (forEach_log banner start).
  pose proof (load_settings_resolved w settings (emitting (map Log banner) start) Hs) as HL.
  rewrite Ha in HL. run_next HL.
  run_next (check_settings_good settings
              (emitting (profile_events settings ++ [Auth])
                 (emitting (map Log banner) start)) Hgood).
  rewrite ?bind_assoc.
  match goal with
  | |- context [bind (resolve_zone w settings) _ ?m] =>
      run_next (resolve_zone_resolved w settings id Name m Hid Ht Hz)
  end.
  rewrite ?bind_assoc.
  match goal with
  | |- context [snd (?c ?m)] =>
      assert (HR : respects
                (fun v => dnsBaseName v = Some (slice Name 0 (-1)))
                (fun e => forall snap, e = Export snap ->
                          dnsBaseName snap = Some (slice Name 0 (-1))) c);
      [| specialize (HR m); destruct (HR eq_refl) as [HI [t [Et Ft]]];
         clear HR; set (final := snd (c m)) in * ]
  end.
  { unfold enumerate_regions, aggregate_quotas, gate_and_zones, quota_gate,
      aggregate_zones, role_and_deploy, check_spot_role, deploy.
    respects_all; try (intros snap' Hsnap; discriminate);
      try (intros v Hv; exact Hv).
    all: intros v Hv snap' Hsnap; injection Hsnap as <-; exact Hv. }
  split; [exact HI|].
  intros snap Hin. rewrite Et in Hin.
  cbn [trace emitting start] in Hin.
  rewrite !in_app_iff in Hin.
  pose proof (no_export_before_zone settings snap) as Hno.
  rewrite !in_app_iff in Hno.
  destruct Hin as [[[[Hin|Hin]|[Hin|Hin]]|Hin]|Hin].
  - destruct Hin.
  - exfalso. apply Hno. now left.
  - exfalso. apply Hno. right. now left.
  - exfalso. apply Hno. right. now right.
  - simpl in Hin. intuition discriminate.
  - rewrite Forall_forall in Ft. now apply (Ft _ Hin).
Qed.

(** C8.  When the settings ask for a hosted zone and the lookup returns a
    name that ends in the root label, such as example.com. with its final
    dot, the stored [dnsBaseName] is the name without that one last
    character, here example.com; the snapshot handed on carries the same. *)
Theorem dnsBaseName_strips_root_label (w : World) (settings : Obj json)
  (id : json) (base : string) (u : unit) :
  npk_settings w = Resolved settings ->
  auth w = Resolved u ->
  badSettings settings = [] ->
  JsObject.get "route53Zone" settings = Some id ->
  truthy id = true ->
  getHostedZone w id = Resolved (base ++ ".") ->
  dnsBaseName (validatedSettings (snd (generate w))) = Some base /\
  (forall snap, In (Export snap) (trace (snd (generate w))) ->
                dnsBaseName snap = Some base).
Proof.
  intros Hs Ha Hgood Hid Ht Hz.
  pose proof (dnsBaseName_stored w settings id (base ++ ".") u
                Hs Ha Hgood Hid Ht Hz) as H.
  now rewrite (slice_drop_last base ".") in H.
Qed.

(** C10.  Whatever name a successful hosted-zone lookup returns, the stored
    [dnsBaseName] is [Name.slice(0, -1)]: the name without its last
    character, whether or not that character is the dot of the root label
    (and the empty name stays empty). *)
Theorem dnsBaseName_drops_last_character (w : World) (settings : Obj json)
  (id : json) (Name : string) (u : unit) :
  npk_settings w = Resolved settings ->
  auth w = Resolved u ->
  badSettings settings = [] ->
  JsObject.get "route53Zone" settings = Some id ->
  truthy id = true ->
  getHostedZone w id = Resolved Name ->
  dnsBaseName (validatedSettings (snd (generate w))) = Some (slice Name 0 (-1)) /\
  (forall pre c, Name = pre ++ String c EmptyString ->
     dnsBaseName (validatedSettings (snd (generate w))) = Some pre) /\
  (Name = EmptyString ->
     dnsBaseName (validatedSettings (snd (generate w))) = Some EmptyString).
Proof.
  intros Hs Ha Hgood Hid Ht Hz.
  destruct (dnsBaseName_stored w settings id Name u Hs Ha Hgood Hid Ht Hz)
    as [H _].
  split; [exact H|]. split.
  - intros pre c ->. now rewrite slice_drop_last in H.
  - intros ->. exact H.
Qed.

(** ** Quota aggregation *)

Lemma promise_all_machine {A S} (l : list (string * Settled A))
  (callback : S -> string -> A -> Settled S) s m r m' :
  promise_all l callback s m = (r, m') -> m' = m.
Proof.
  revert s; induction l as [|[region [data|e]] l IH]; intros s; simpl.
  - unfold ret. now intros [= _ <-].
  - destruct (callback s region data); [apply IH | unfold throw; now intros [= _ <-]].
  - unfold throw. now intros [= _ <-].
Qed.

Lemma promise_all_Next {A S} (l : list (string * Settled A))
  (callback : S -> string -> A -> Settled S) s m s' m' :
  promise_all l callback s m = (Next s', m') ->
  exists datas,
    l = map (fun rd => (fst rd, Resolved (snd rd))) datas /\
    callbacks callback datas s = Resolved s'.
Proof.
  revert s; induction l as [|[region [data|e]] l IH]; intros s; simpl.
  - unfold ret. intros [= <- _]. now exists [].
  - destruct (callback s region data) as [s1|e] eqn:E.
    + intros H. destruct (IH _ H) as [datas [-> Hc]].
      exists ((region, data) :: datas). simpl. now rewrite E.
    + unfold throw. discriminate.
  - unfold throw. discriminate.
Qed.

Lemma promise_all_resolved {A S} (datas : list (string * A))
  (callback : S -> string -> A -> Settled S) s s' m :
  callbacks callback datas s = Resolved s' ->
  promise_all (map (fun rd => (fst rd, Resolved (snd rd))) datas) callback s m
  = (Next s', m).
Proof.
  revert s; induction datas as [|[region data] r IH]; intros s; simpl.
  - now intros [= <-].
  - destruct (callback s region data); [apply IH | discriminate].
Qed.

Lemma fold_record_region (region : string) (l : list Quota) acc :
  fold_left record_row (map (pair region) l) acc =
  fold_left (record_quota region) l acc.
Proof. revert acc; induction l as [|q l IH]; intros acc; simpl; [reflexivity | apply IH]. Qed.

Lemma callbacks_quota (codes : list string) datas acc :
  callbacks (quota_callback codes) datas acc =
  Resolved (fold_left record_row (rows codes datas) acc).
Proof.
  revert acc; induction datas as [|[region data] r IH]; intros acc; simpl.
  - reflexivity.
  - unfold rows. simpl. rewrite fold_left_app, fold_record_region. apply IH.
Qed.

Section RecordQuota.
Import JsObject JsObjectFacts.

Variables (region : string) (acc : Obj (Obj Z) * Z) (q : Quota).

Lemma record_quota_lookup r c :
  lookup (fst (record_quota region acc q)) r c =
  if String.eqb r region && String.eqb c (QuotaCode q)
  then Some (Value q) else lookup (fst acc) r c.
Proof.
  destruct acc as [rq mq]. unfold record_quota, lookup. simpl.
  destruct (String.eqb_spec r region) as [->|Nr]; simpl.
  - rewrite get_set_same.
    destruct (get region rq) as [sub|] eqn:E.
    + rewrite E.
      destruct (String.eqb_spec c (QuotaCode q)) as [->|Nc].
      * apply get_set_same.
      * apply get_set_other. congruence.
    + rewrite get_set_same.
      destruct (String.eqb_spec c (QuotaCode q)) as [->|Nc].
      * apply get_set_same.
      * rewrite get_set_other by congruence. reflexivity.
  - rewrite get_set_other by congruence.
    destruct (get region rq) as [sub|] eqn:E; [reflexivity|].
    rewrite get_set_other by congruence. reflexivity.
Qed.

Lemma record_quota_keys r :
  In r (keys (fst (record_quota region acc q))) <->
  r = region \/ In r (keys (fst acc)).
Proof.
  destruct acc as [rq mq]. unfold record_quota. simpl.
  rewrite in_keys_set.
  destruct (get region rq) as [sub|] eqn:E; [reflexivity|].
  rewrite in_keys_set. tauto.
Qed.

Lemma record_quota_NoDup :
  NoDup (keys (fst acc)) -> NoDup (keys (fst (record_quota region acc q))).
Proof.
  destruct acc as [rq mq]. unfold record_quota. simpl. intros H.
  apply NoDup_keys_set.
  destruct (get region rq); [assumption | now apply NoDup_keys_set].
Qed.

Lemma record_quota_max :
  snd (record_quota region acc q) = Z.max (snd acc) (Value q).
Proof.
  destruct acc as [rq mq]. unfold record_quota. simpl.
  destruct (Z.gtb_spec (Value q) mq); lia.
Qed.

End RecordQuota.

(** What the callbacks leave behind, in terms of the rows they have seen. *)
Lemma fold_record_rows (L : list (string * Quota)) :
  let acc := fold_left record_row L ([], 0) in
  (forall r c v, lookup (fst acc) r c = Some v ->
     exists q, In (r, q) L /\ QuotaCode q = c /\ Value q = v) /\
  (forall r q, In (r, q) L -> exists v, lookup (fst acc) r (QuotaCode q) = Some v) /\
  (forall r, In r (JsObject.keys (fst acc)) <-> exists q, In (r, q) L) /\
  NoDup (JsObject.keys (fst acc)) /\
  (forall row, In row L -> Value (snd row) <= snd acc) /\
  (snd acc = 0 \/ exists row, In row L /\ Value (snd row) = snd acc) /\
  0 <= snd acc.
Proof.
  induction L as [|[region q] L IH] using rev_ind; cbv zeta in *.
  - simpl. repeat split; try (intros; discriminate); try (intros; contradiction).
    all: try (intros [q []]); try constructor; try (now left); try lia.
  - rewrite fold_left_app. simpl.
    set (acc := fold_left record_row L ([], 0)) in *.
    destruct IH as (Ha & Hb & Hk & Hn & Hle & Hat & Hpos).
    change (record_row acc (region, q)) with (record_quota region acc q).
    repeat split.
    + intros r c v. rewrite record_quota_lookup.
      destruct (String.eqb_spec r region) as [->|Nr]; simpl.
      * destruct (String.eqb_spec c (QuotaCode q)) as [->|Nc].
        -- intros [= <-]. exists q. rewrite in_app_iff. simpl. auto.
        -- intros H. destruct (Ha _ _ _ H) as [q' [Hin Hq']].
           exists q'. rewrite in_app_iff. auto.
      * intros H. destruct (Ha _ _ _ H) as [q' [Hin Hq']].
        exists q'. rewrite in_app_iff. auto.
    + intros r q' Hin. rewrite record_quota_lookup.
      destruct (String.eqb r region && String.eqb (QuotaCode q') (QuotaCode q))
        eqn:E; [eauto|].
      apply in_app_iff in Hin. destruct Hin as [Hin|[[= -> ->]|[]]].
      * now apply Hb.
      * rewrite !String.eqb_refl in E. discriminate.
    + rewrite record_quota_keys, Hk. intros [->|[q' Hq']].
      * exists q. rewrite in_app_iff. simpl. auto.
      * exists q'. rewrite in_app_iff. auto.
    + rewrite record_quota_keys, Hk. intros [q' Hq'].
      apply in_app_iff in Hq'. destruct Hq' as [Hq'|[[= -> ->]|[]]]; eauto.
    + now apply record_quota_NoDup.
    + intros row Hin. rewrite record_quota_max.
      apply in_app_iff in Hin. destruct Hin as [Hin|[<-|[]]].
      * specialize (Hle _ Hin). lia.
      * simpl. lia.
    + rewrite record_quota_max.
      destruct (Z.max_spec (snd acc) (Value q)) as [[_ E]|[_ E]]; rewrite E.
      * right. exists (region, q). rewrite in_app_iff. simpl. auto.
      * destruct Hat as [Hat|[row [Hin Hv]]]; [now left|].
        right. exists row. rewrite in_app_iff. auto.
    + rewrite record_quota_max. lia.
Qed.

Lemma enumerate_regions_Next w m P m' :
  enumerate_regions w m = (Next P, m') ->
  (exists Regions, describeRegions w = Resolved Regions /\
                   P = activeRegions Regions) /\
  providerRegions (validatedSettings m') = Some P.
Proof.
  unfold enumerate_regions.
  destruct (describeRegions w) as [Regions|e];
    unfold bind, emit, update, log, ret, return_; simpl; [|discriminate].
  intros [= <- <-]. simpl. split; [now exists Regions | reflexivity].
Qed.

Lemma in_resolved_map {A} (datas : list (string * A)) r d :
  In (r, Resolved d) (map (fun rd => (fst rd, Resolved (snd rd))) datas) <->
  In (r, d) datas.
Proof.
  rewrite in_map_iff. split.
  - intros [[r' d'] [[= -> ->] H]]. exact H.
  - intros H. now exists (r, d).
Qed.

Lemma in_rows codes datas r q :
  In (r, q) (rows codes datas) <->
  exists d, In (r, d) datas /\ In q d /\ tracked codes q = true.
Proof.
  unfold rows. rewrite in_flat_map. split.
  - intros [[r' d] [Hin H]]. simpl in H. apply in_map_iff in H.
    destruct H as [q' [[= -> ->] H]]. apply filter_In in H.
    exists d. tauto.
  - intros [d [Hin [Hq Ht]]]. exists (r, d). split; [assumption|].
    simpl. apply in_map. apply filter_In. tauto.
Qed.

Lemma aggregate_quotas_Next w P codes m rq mq m' :
  aggregate_quotas w P codes m = (Next (rq, mq), m') ->
  m' = emitting (map ListServiceQuotas P) m /\
  (forall r, In r P -> resolved (listServiceQuotas w r) = true) /\
  exists L,
    (forall r q, In (r, q) L <->
       In r P /\
       exists Quotas, listServiceQuotas w r = Resolved Quotas /\
                      In q Quotas /\ tracked codes q = true) /\
    (rq, mq) = fold_left record_row L ([], 0).
Proof.
  unfold aggregate_quotas.
  rewrite (bind_run _ (forEach_emit P ListServiceQuotas m)).
  intros H. pose proof (promise_all_machine _ _ _ _ _ _ H) as ->.
  apply promise_all_Next in H. destruct H as [datas [Hs Hc]].
  rewrite callbacks_quota in Hc. injection Hc as Hc.
  assert (Hdatas : forall r d, In (r, d) datas <->
                     In r P /\ listServiceQuotas w r = Resolved d).
  { intros r d. rewrite <- in_resolved_map, <- Hs. split.
    - intros H.
      apply (Permutation_in _ (Permutation_sym (settle_Permutation _ _))) in H.
      apply in_map_iff in H. destruct H as [r' [[= -> E] H]]. now split.
    - intros [H E]. apply (Permutation_in _ (settle_Permutation _ _)).
      apply in_map_iff. exists r. now rewrite E. }
  split; [reflexivity|]. split.
  - intros r Hr.
    assert (In (r, listServiceQuotas w r)
              (map (fun rd => (fst rd, Resolved (snd rd))) datas)) as H.
    { rewrite <- Hs. apply (Permutation_in _ (settle_Permutation _ _)).
      apply in_map_iff. now exists r. }
    apply in_map_iff in H. destruct H as [rd [[= _ E] _]]. now rewrite <- E.
  - exists (rows codes datas). split; [|now symmetry].
    intros r q. rewrite in_rows. split.
    + intros [d [Hd [Hq Ht]]]. apply Hdatas in Hd. destruct Hd as [Hr E].
      split; [assumption|]. now exists d.
    + intros [Hr [d [E [Hq Ht]]]]. exists d. split; [|tauto].
      apply Hdatas. now split.
Qed.

Lemma survey_quotas_Next w rq mq m :
  survey_quotas w start = (Next (rq, mq), m) ->
  exists P,
    providerRegions (validatedSettings m) = Some P /\
    (exists Regions, describeRegions w = Resolved Regions /\
                     P = activeRegions Regions) /\
    (forall r, In r P -> resolved (listServiceQuotas w r) = true) /\
    exists L,
      (forall r q, In (r, q) L <->
         In r P /\
         exists Quotas,
           listServiceQuotas w r = Resolved Quotas /\ In q Quotas /\
           tracked (quotaCodes (gpu_instance_families w)) q = true) /\
      (rq, mq) = fold_left record_row L ([], 0).
Proof.
  unfold survey_quotas. intros H.
  apply bind_Next in H. destruct H as (? & m1 & _ & H).
  apply bind_Next in H. destruct H as (settings & m2 & _ & H).
  apply bind_Next in H. destruct H as (? & m3 & _ & H).
  apply bind_Next in H. destruct H as (? & m4 & _ & H).
  apply bind_Next in H. destruct H as (P & m5 & HP & H).
  apply enumerate_regions_Next in HP. destruct HP as [HR HP].
  apply aggregate_quotas_Next in H. destruct H as (-> & Hres & L & HL & Hfold).
  exists P. repeat split; try assumption. now exists L.
Qed.

Lemma survey_quotas_early w :
  respects
    (fun v => quotas v = None /\ regions v = None /\ spotslr_exists v = None)
    (fun e => early_event e = true) (survey_quotas w).
Proof.
  unfold survey_quotas, load_settings, check_settings, resolve_zone,
    enumerate_regions, aggregate_quotas.
  respects_all; try reflexivity; intros v Hv; exact Hv.
Qed.

Lemma tracked_spec codes q :
  tracked codes q = true <-> In (QuotaCode q) codes /\ 0 < Value q.
Proof.
  unfold tracked. rewrite andb_true_iff, indexOf_found.
  rewrite Z.gtb_lt. tauto.
Qed.

(** The catalog codes, each once. *)
Lemma quotaCodes_spec (families : Obj Family) :
  NoDup (quotaCodes families) /\
  forall c, In c (quotaCodes families) <->
            In c (map (fun entry => quotaCode (snd entry)) families).
Proof.
  unfold quotaCodes.
  induction families as [|entry families IH] using rev_ind; simpl.
  - split; [constructor | tauto].
  - rewrite fold_left_app, map_app. simpl.
    set (codes := fold_left _ families []) in *.
    destruct IH as [Hn Hc].
    destruct (indexOf (quotaCode (snd entry)) codes =? -1) eqn:E.
    + apply indexOf_minus_one in E. split.
      * apply NoDup_app; [assumption | repeat constructor; intros [] |].
        intros x Hx [<-|[]]. contradiction.
      * intros c. rewrite !in_app_iff, Hc. reflexivity.
    + assert (In (quotaCode (snd entry)) codes) as Hin.
      { destruct (in_dec string_dec (quotaCode (snd entry)) codes) as [H|H];
          [assumption|].
        apply indexOf_minus_one in H. congruence. }
      split; [assumption|].
      intros c. rewrite in_app_iff, <- Hc. simpl.
      split; [tauto | intros [H|[<-|[]]]; assumption].
Qed.

Lemma in_observed w P v :
  In v (observed w P) <->
  exists r Quotas q,
    In r P /\ listServiceQuotas w r = Resolved Quotas /\ In q Quotas /\
    In (QuotaCode q) (quotaCodes (gpu_instance_families w)) /\ Value q = v.
Proof.
  unfold observed. rewrite in_flat_map. split.
  - intros [r [Hr H]]. destruct (listServiceQuotas w r) as [Quotas|e] eqn:E;
      [|destruct H].
    apply in_map_iff in H. destruct H as [q [Hv H]].
    apply filter_In in H. destruct H as [Hq Hc]. apply indexOf_found in Hc.
    exists r, Quotas, q. tauto.
  - intros (r & Quotas & q & Hr & E & Hq & Hc & Hv). exists r.
    split; [assumption|]. rewrite E. apply in_map_iff. exists q.
    split; [assumption|]. apply filter_In. split; [assumption|].
    now apply indexOf_found.
Qed.

Lemma max_or_zero_spec (l : list Z) :
  (forall v, In v l -> v <= max_or_zero l) /\
  (max_or_zero l = 0 \/ In (max_or_zero l) l) /\
  0 <= max_or_zero l.
Proof.
  unfold max_or_zero. induction l as [|x l (Hle & Hat & Hpos)]; simpl.
  - repeat split; [intros v [] | now left | lia].
  - repeat split.
    + intros v [<-|H]; [lia | specialize (Hle v H); lia].
    + destruct (Z.max_spec x (fold_right Z.max 0 l)) as [[_ E]|[_ E]];
        rewrite E; [|now right; left].
      destruct Hat as [Hat|Hat]; [now left | now right; right].
    + lia.
Qed.

Lemma max_or_zero_unique (l : list Z) (x : Z) :
  (forall v, In v l -> v <= x) -> (x = 0 \/ In x l) -> 0 <= x ->
  x = max_or_zero l.
Proof.
  intros Hle Hat Hpos.
  destruct (max_or_zero_spec l) as (Hle' & Hat' & Hpos').
  assert (x <= max_or_zero l) by (destruct Hat as [->|H]; [lia | now apply Hle']).
  assert (max_or_zero l <= x)
    by (destruct Hat' as [->|H']; [lia | now apply Hle]).
  lia.
Qed.

(** C1.  Once every quota promise has resolved, [maxQuota] is the largest
    value among the rows with a catalog code returned by the regions of
    [providerRegions], in whatever order the promises settled; it is 0
    exactly when no such value is positive, which is exactly when
    [regionQuotas] is empty.  Every value kept in [regionQuotas] is positive
    and at most [maxQuota], and [maxQuota], when positive, is one of them
    as long as no region returns two different values for one code. *)
Theorem maxQuota_is_maximum (w : World) (regionQuotas : Obj (Obj Z))
  (maxQuota : Z) (m : Machine) :
  survey_quotas w start = (Next (regionQuotas, maxQuota), m) ->
  exists P,
    providerRegions (validatedSettings m) = Some P /\
    maxQuota = max_or_zero (observed w P) /\
    (forall v, In v (observed w P) -> v <= maxQuota) /\
    (0 < maxQuota -> In maxQuota (observed w P)) /\
    (maxQuota = 0 <-> regionQuotas = []) /\
    (maxQuota = 0 <-> forall v, In v (observed w P) -> v <= 0) /\
    (forall r c v, lookup regionQuotas r c = Some v -> 0 < v <= maxQuota) /\
    ((forall r Quotas q q',
        listServiceQuotas w r = Resolved Quotas -> In q Quotas -> In q' Quotas ->
        QuotaCode q = QuotaCode q' -> Value q = Value q') ->
     0 < maxQuota -> exists r c, lookup regionQuotas r c = Some maxQuota).
Proof.
  intros H. apply survey_quotas_Next in H.
  destruct H as (P & HP & _ & _ & L & HL & Hfold).
  pose proof (fold_record_rows L) as HF. cbv zeta in HF.
  rewrite <- Hfold in HF. simpl in HF.
  destruct HF as (Ha & Hb & Hk & _ & Hle & Hat & Hpos).
  assert (Hrow : forall row, In row L ->
                   0 < Value (snd row) /\ In (Value (snd row)) (observed w P)).
  { intros [r q] Hin. apply HL in Hin.
    destruct Hin as (Hr & Quotas & E & Hq & Ht). apply tracked_spec in Ht.
    split; [tauto|]. apply in_observed. exists r, Quotas, q. tauto. }
  assert (Hub : forall v, In v (observed w P) -> v <= maxQuota).
  { intros v Hv. apply in_observed in Hv.
    destruct Hv as (r & Quotas & q & Hr & E & Hq & Hc & <-).
    destruct (Z_lt_le_dec 0 (Value q)) as [Hp|Hn]; [|lia].
    apply (Hle (r, q)). apply HL. split; [assumption|].
    exists Quotas. rewrite tracked_spec. tauto. }
  assert (Hin : maxQuota = 0 \/ In maxQuota (observed w P)).
  { destruct Hat as [Hz|[row [Hin Hv]]]; [now left|].
    right. rewrite <- Hv. now apply Hrow. }
  exists P. split; [assumption|].
  split; [|split; [|split; [|split; [|split; [|split]]]]].
  - now apply max_or_zero_unique.
  - exact Hub.
  - intros Hp. destruct Hin as [Hz|Hin]; [lia | assumption].
  - split.
    + intros Hz. destruct regionQuotas as [|[r sub] rest]; [reflexivity|].
      exfalso. destruct (proj1 (Hk r)) as [q Hq]; [now left|].
      pose proof (Hle _ Hq). pose proof (proj1 (Hrow _ Hq)). lia.
    + intros ->. destruct Hat as [Hz|[[r q] [Hq _]]]; [assumption|].
      exfalso. apply (proj2 (Hk r)). now exists q.
  - split.
    + intros Hz v Hv. specialize (Hub v Hv). lia.
    + intros Hall. destruct Hin as [Hz|Hin]; [assumption|].
      specialize (Hall _ Hin). lia.
  - intros r c v Hl. destruct (Ha _ _ _ Hl) as (q & Hq & _ & <-).
    pose proof (Hle _ Hq). pose proof (proj1 (Hrow _ Hq)). simpl in *. lia.
  - intros Huniq Hp. destruct Hat as [Hz|[[r q] [Hq Hv]]]; [lia|].
    simpl in Hv. exists r, (QuotaCode q).
    destruct (Hb _ _ Hq) as [v Hl]. rewrite Hl. f_equal.
    destruct (Ha _ _ _ Hl) as (q' & Hq' & Hc & <-). rewrite <- Hv.
    apply HL in Hq. destruct Hq as (_ & Quotas & E & Hrq & _).
    apply HL in Hq'. destruct Hq' as (_ & Quotas' & E' & Hrq' & _).
    rewrite E in E'. injection E' as <-.
    now apply (Huniq r Quotas q' q).
Qed.

(** When a region returns the same code twice, the later row is the one
    kept in [regionQuotas], while [maxQuota] has seen both. *)
Remark repeated_code_keeps_last_row :
  fold_left (record_quota "us-east-1")
    [ {| QuotaCode := "L-3819A6DF"; Value := 8 |};
      {| QuotaCode := "L-3819A6DF"; Value := 5 |} ] ([], 0)
  = ([("us-east-1", [("L-3819A6DF", 5)])], 8).
Proof. reflexivity. Qed.

(** C7.  [regionQuotas] holds an entry for a region and a code only when
    that region returned a row with this code, the code is one of the
    distinct codes of the catalog and the value is greater than 0; every
    such row gives an entry; and a region whose rows with catalog codes are
    all at most 0 is not a key of [regionQuotas]. *)
Theorem regionQuotas_keeps_positive_tracked_rows (w : World)
  (regionQuotas : Obj (Obj Z)) (maxQuota : Z) (m : Machine) :
  survey_quotas w start = (Next (regionQuotas, maxQuota), m) ->
  let codes := quotaCodes (gpu_instance_families w) in
  (NoDup codes /\
   forall c, In c codes <->
     In c (map (fun entry => quotaCode (snd entry)) (gpu_instance_families w))) /\
  exists P,
    providerRegions (validatedSettings m) = Some P /\
    (forall r c v, lookup regionQuotas r c = Some v ->
       0 < v /\ In c codes /\ In r P /\
       exists Quotas q,
         listServiceQuotas w r = Resolved Quotas /\ In q Quotas /\
         QuotaCode q = c /\ Value q = v) /\
    (forall r Quotas q,
       In r P -> listServiceQuotas w r = Resolved Quotas -> In q Quotas ->
       In (QuotaCode q) codes -> 0 < Value q ->
       exists v, lookup regionQuotas r (QuotaCode q) = Some v) /\
    (forall r Quotas,
       listServiceQuotas w r = Resolved Quotas ->
       (forall q, In q Quotas -> In (QuotaCode q) codes -> Value q <= 0) ->
       ~ In r (JsObject.keys regionQuotas)) /\
    (forall r, In r (JsObject.keys regionQuotas) ->
       exists c v, lookup regionQuotas r c = Some v /\ 0 < v).
Proof.
  intros H codes. apply survey_quotas_Next in H.
  destruct H as (P & HP & _ & _ & L & HL & Hfold).
  pose proof (fold_record_rows L) as HF. cbv zeta in HF.
  rewrite <- Hfold in HF. simpl in HF.
  destruct HF as (Ha & Hb & Hk & _ & _ & _ & _).
  fold codes in HL.
  assert (Hentry : forall r c v, lookup regionQuotas r c = Some v ->
            0 < v /\ In c codes /\ In r P /\
            exists Quotas q,
              listServiceQuotas w r = Resolved Quotas /\ In q Quotas /\
              QuotaCode q = c /\ Value q = v).
  { intros r c v Hl. destruct (Ha _ _ _ Hl) as (q & Hin & <- & <-).
    apply HL in Hin. destruct Hin as (Hr & Quotas & E & Hq & Ht).
    apply tracked_spec in Ht. repeat split; try tauto.
    now exists Quotas, q. }
  split; [apply quotaCodes_spec|]. exists P. split; [assumption|].
  split; [exact Hentry|]. split; [|split].
  - intros r Quotas q Hr E Hq Hc Hv.
    apply Hb. apply HL. split; [assumption|]. exists Quotas.
    rewrite tracked_spec. tauto.
  - intros r Quotas E Hall Hin. apply Hk in Hin. destruct Hin as [q Hin].
    apply HL in Hin. destruct Hin as (_ & Quotas' & E' & Hq & Ht).
    rewrite E in E'. injection E' as <-. apply tracked_spec in Ht.
    specialize (Hall q Hq (proj1 Ht)). lia.
  - intros r Hin. apply Hk in Hin. destruct Hin as [q Hin].
    destruct (Hb _ _ Hin) as [v Hv]. exists (QuotaCode q), v.
    split; [assumption|]. now destruct (Hentry _ _ _ Hv).
Qed.

(** ** The quota gate and the zones *)

Lemma generate_after_quotas w acc m :
  survey_quotas w start = (Next acc, m) ->
  generate w = (gate_and_zones w acc ;; role_and_deploy w) m.
Proof.
  intros H. unfold generate, survey. now run_next H.
Qed.

Lemma gate_zero w regionQuotas m :
  gate_and_zones w (regionQuotas, 0) m =
  (Return false, emitting zero_quota_lines m).
Proof.
  unfold gate_and_zones, quota_gate, zero_quota_lines. simpl.
  unfold bind, log, emit, return_, emitting. simpl.
  now rewrite <- !app_assoc.
Qed.

(** Any value other than 0 passes the gate. *)
Lemma quota_gate_passes_nonzero maxQuota m :
  maxQuota <> 0 -> quota_gate maxQuota m = (Next tt, m).
Proof.
  intros Hn. unfold quota_gate.
  replace (maxQuota =? 0) with false by (symmetry; now apply Z.eqb_neq).
  reflexivity.
Qed.

Lemma gate_nonzero w regionQuotas maxQuota m :
  maxQuota <> 0 ->
  gate_and_zones w (regionQuotas, maxQuota) m =
  match
    promise_all
      (settle (zoneSettling w)
         (map (fun region => (region, describeAvailabilityZones w region))
            (JsObject.keys regionQuotas)))
      zone_callback (empty_zones (JsObject.keys regionQuotas))
      (zones_requested regionQuotas m)
  with
  | (Next azs, _) => (Next tt, zones_stored azs (zones_requested regionQuotas m))
  | (Return b, _) => (Return b, zones_requested regionQuotas m)
  | (Throw e, _) => (Throw e, zones_requested regionQuotas m)
  end.
Proof.
  intros Hn. unfold gate_and_zones, quota_gate.
  replace (maxQuota =? 0) with false by (symmetry; now apply Z.eqb_neq).
  unfold when. unfold bind at 1. unfold ret at 1.
  unfold bind at 1. unfold update at 1.
  unfold bind at 1. unfold log at 1, emit at 1.
  unfold aggregate_zones. rewrite bind_assoc.
  match goal with
  | |- context [forEach ?l _] =>
      rewrite (bind_run _ (forEach_emit l DescribeAvailabilityZones _))
  end.
  match goal with
  | |- context [emitting ?t ?m0] =>
      replace (emitting t m0) with (zones_requested regionQuotas m)
        by (unfold zones_requested, emitting; simpl;
            now rewrite <- app_assoc)
  end.
  fold (empty_zones (JsObject.keys regionQuotas)).
  unfold bind at 1.
  destruct (promise_all _ zone_callback _ _) as [[azs|b|e] m'] eqn:E;
    pose proof (promise_all_machine _ _ _ _ _ _ E) as ->; reflexivity.
Qed.

Lemma survey_quotas_trace w r m :
  survey_quotas w start = (r, m) ->
  Forall (fun e => early_event e = true) (trace m) /\
  quotas (validatedSettings m) = None /\
  regions (validatedSettings m) = None /\
  spotslr_exists (validatedSettings m) = None.
Proof.
  intros H. pose proof (survey_quotas_early w start) as HR.
  rewrite H in HR. simpl in HR.
  destruct HR as [HI [t [-> Ft]]]; [repeat split|]. tauto.
Qed.

(** C2.  When [maxQuota] is 0 after the quota promises have resolved,
    [generate] prints the zero-quota lines and returns [false]: no
    availability-zone probe has been issued, nothing has been handed to the
    template engine, and [validatedSettings] holds neither quotas nor
    zones. *)
Theorem zero_quota_stops_before_zones (w : World) (regionQuotas : Obj (Obj Z))
  (m : Machine) :
  survey_quotas w start = (Next (regionQuotas, 0), m) ->
  generate w = (Return false, emitting zero_quota_lines m) /\
  (forall r, ~ In (DescribeAvailabilityZones r) (trace (snd (generate w)))) /\
  Forall (fun e => is_sink e = false) (trace (snd (generate w))) /\
  quotas (validatedSettings (snd (generate w))) = None /\
  regions (validatedSettings (snd (generate w))) = None.
Proof.
  intros H.
  assert (Hrun : generate w = (Return false, emitting zero_quota_lines m)).
  { rewrite (generate_after_quotas w _ _ H).
    apply bind_Return, gate_zero. }
  destruct (survey_quotas_trace w _ _ H) as (Ft & Hq & Hz & _).
  rewrite Hrun. cbn [snd emitting trace validatedSettings].
  rewrite Forall_forall in Ft.
  split; [reflexivity|]. split; [|split; [|split; assumption]].
  - intros r Hin. apply in_app_iff in Hin. destruct Hin as [Hin|Hin].
    + specialize (Ft _ Hin). discriminate.
    + simpl in Hin. intuition discriminate.
  - apply Forall_app. split.
    + apply Forall_forall. intros e He. specialize (Ft e He).
      destruct e; try discriminate; reflexivity.
    + repeat constructor.
Qed.

Section ZoneKeys.
Import JsObject JsObjectFacts.

Lemma empty_zones_keys (l : list string) r :
  In r (keys (empty_zones l)) <-> In r l.
Proof.
  unfold empty_zones.
  assert (G : forall (azs : Obj (list string)),
             In r (keys (fold_left (fun azs region => set region [] azs) l azs))
             <-> In r l \/ In r (keys azs)).
  { induction l as [|x l IH]; intros azs; simpl.
    - tauto.
    - rewrite IH, in_keys_set. intuition. }
  rewrite G. simpl. tauto.
Qed.

Lemma zone_callback_keys azs region data azs' :
  zone_callback azs region data = Resolved azs' -> keys azs' = keys azs.
Proof.
  unfold zone_callback.
  generalize (filter (fun a => String.eqb (State a) "available") data).
  intros l. revert azs. induction l as [|a l IH]; intros azs; simpl.
  - now intros [= <-].
  - destruct (get region azs) as [zones|] eqn:E.
    + intros H. rewrite (IH _ H). apply keys_set_present.
      apply in_keys_get. now exists zones.
    + intros H. exfalso. clear -H. induction l as [|b l IH]; simpl in H;
        [discriminate | auto].
Qed.

Lemma callbacks_zone_keys datas azs azs' :
  callbacks zone_callback datas azs = Resolved azs' -> keys azs' = keys azs.
Proof.
  revert azs; induction datas as [|[region data] r IH]; intros azs; simpl.
  - now intros [= <-].
  - destruct (zone_callback azs region data) as [azs1|e] eqn:E;
      [|discriminate].
    intros H. rewrite (IH _ H). now apply zone_callback_keys in E.
Qed.

End ZoneKeys.

(** ** The spot role and the hand-over *)

Lemma role_and_deploy_run w m :
  let flag := resolved (getRole w "AWSServiceRoleForEC2Spot") in
  let snapshot := set_spotslr_exists flag (validatedSettings m) in
  role_and_deploy w m =
  (Return (resolved (render w) && resolved (apply w)),
   emitting (role_events w ++ deploy_events w snapshot)
     {| validatedSettings := snapshot; trace := trace m |}).
Proof.
  unfold role_and_deploy, check_spot_role, deploy, role_events, deploy_events.
  destruct (getRole w "AWSServiceRoleForEC2Spot") as [u|e];
    destruct (render w) as [u1|e1]; destruct (apply w) as [u2|e2];
    unfold bind, update, log, emit, ret, return_, emitting; simpl;
    rewrite <- ?app_assoc; reflexivity.
Qed.

Lemma role_and_deploy_no_zone_probe w snapshot r :
  ~ In (DescribeAvailabilityZones r) (role_events w ++ deploy_events w snapshot).
Proof.
  unfold role_events, deploy_events.
  destruct (getRole w "AWSServiceRoleForEC2Spot");
    destruct (render w); destruct (apply w); simpl; intuition discriminate.
Qed.

Lemma regionQuotas_keys w (regionQuotas : Obj (Obj Z)) (maxQuota : Z) m :
  survey_quotas w start = (Next (regionQuotas, maxQuota), m) ->
  exists P,
    providerRegions (validatedSettings m) = Some P /\
    forall r, In r (JsObject.keys regionQuotas) <->
              In r P /\ exists c v, lookup regionQuotas r c = Some v /\ 0 < v.
Proof.
  intros H. apply survey_quotas_Next in H.
  destruct H as (P & HP & _ & _ & L & HL & Hfold).
  pose proof (fold_record_rows L) as HF. cbv zeta in HF.
  rewrite <- Hfold in HF. simpl in HF.
  destruct HF as (Ha & Hb & Hk & _ & _ & _ & _).
  exists P. split; [assumption|]. intros r. split.
  - intros Hin. apply Hk in Hin. destruct Hin as [q Hin].
    destruct (Hb _ _ Hin) as [v Hv].
    apply HL in Hin. destruct Hin as (Hr & Quotas & E & Hq & Ht).
    split; [assumption|]. exists (QuotaCode q), v. split; [assumption|].
    destruct (Ha _ _ _ Hv) as (q' & Hin' & _ & <-).
    apply HL in Hin'. destruct Hin' as (_ & Quotas' & _ & _ & Ht').
    apply tracked_spec in Ht'. tauto.
  - intros [_ (c & v & Hl & _)]. unfold lookup in Hl.
    apply JsObjectFacts.in_keys_get.
    destruct (JsObject.get r regionQuotas) as [sub|]; [now exists sub | discriminate].
Qed.

Lemma zones_keys w (regionQuotas : Obj (Obj Z)) m azs m' :
  promise_all
    (settle (zoneSettling w)
       (map (fun region => (region, describeAvailabilityZones w region))
          (JsObject.keys regionQuotas)))
    zone_callback (empty_zones (JsObject.keys regionQuotas)) m
  = (Next azs, m') ->
  forall r, In r (JsObject.keys azs) <-> In r (JsObject.keys regionQuotas).
Proof.
  intros H r. apply promise_all_Next in H. destruct H as [datas [_ Hc]].
  apply callbacks_zone_keys in Hc. rewrite Hc. apply empty_zones_keys.
Qed.

Lemma in_zone_probes r (l : list string) :
  In (DescribeAvailabilityZones r) (map DescribeAvailabilityZones l) <-> In r l.
Proof.
  rewrite in_map_iff. split.
  - now intros [x [[= ->] H]].
  - intros H. now exists r.
Qed.

Lemma zones_requested_probes (regionQuotas : Obj (Obj Z)) m r :
  (forall e, In e (trace m) -> early_event e = true) ->
  In (DescribeAvailabilityZones r) (trace (zones_requested regionQuotas m)) <->
  In r (JsObject.keys regionQuotas).
Proof.
  intros Hm. unfold zones_requested. cbn [emitting trace].
  rewrite in_app_iff. simpl. rewrite in_zone_probes. split.
  - intros [H|[H|H]]; [specialize (Hm _ H) | |]; easy.
  - auto.
Qed.

(** C3.  When [validatedSettings.regions] is set, its keys are the regions
    of [providerRegions] for which [validatedSettings.quotas] holds a value
    greater than 0, and these are the regions for which an
    availability-zone probe was issued.  In every run, each zone probe that
    was issued is for such a region. *)
Theorem zone_map_keys (w : World) :
  (forall azs, regions (validatedSettings (snd (generate w))) = Some azs ->
     exists P Q,
       providerRegions (validatedSettings (snd (generate w))) = Some P /\
       quotas (validatedSettings (snd (generate w))) = Some Q /\
       (forall r, In r (JsObject.keys azs) <->
                  In r P /\ exists c v, lookup Q r c = Some v /\ 0 < v) /\
       (forall r, In (DescribeAvailabilityZones r) (trace (snd (generate w)))
                  <-> In r (JsObject.keys azs))) /\
  (forall r, In (DescribeAvailabilityZones r) (trace (snd (generate w))) ->
     exists P Q,
       providerRegions (validatedSettings (snd (generate w))) = Some P /\
       quotas (validatedSettings (snd (generate w))) = Some Q /\
       In r P /\ exists c v, lookup Q r c = Some v /\ 0 < v).
Proof.
  destruct (survey_quotas w start) as [[[rq mq]|b|e] m1] eqn:H.
  - destruct (regionQuotas_keys w _ _ _ H) as (P & HP & Hkeys).
    destruct (survey_quotas_trace w _ _ H) as (Ft & Hq & Hz & Hs).
    rewrite Forall_forall in Ft.
    rewrite (generate_after_quotas w _ _ H).
    destruct (Z.eq_dec mq 0) as [->|Hn].
    + rewrite (bind_Return _ (gate_zero w rq m1)).
      cbn [snd emitting trace validatedSettings]. split.
      * intros azs HZ. rewrite Hz in HZ. discriminate.
      * intros r Hin. exfalso. apply in_app_iff in Hin.
        destruct Hin as [Hin|Hin]; [specialize (Ft _ Hin); discriminate|].
        simpl in Hin. intuition discriminate.
    + pose proof (gate_nonzero w rq mq m1 Hn) as HG. revert HG.
      destruct (promise_all _ zone_callback _ _) as [[azs|b|e] m'] eqn:E;
        intros HG.
      * rewrite (bind_run _ HG). rewrite role_and_deploy_run.
        pose proof (zones_keys w rq _ _ _ E) as Hazs.
        cbn [snd]. unfold zones_stored.
        cbn [emitting trace validatedSettings].
        assert (Hprobe : forall r,
          In (DescribeAvailabilityZones r)
            ((trace (zones_requested rq m1) ++
              [Log "[+] Retrieved availability zones."]) ++
             role_events w ++
             deploy_events w
               (set_spotslr_exists
                  (resolved (getRole w "AWSServiceRoleForEC2Spot"))
                  (set_regions azs (validatedSettings (zones_requested rq m1)))))
          <-> In r (JsObject.keys rq)).
        { intros r. rewrite !in_app_iff.
          rewrite (zones_requested_probes rq m1 r Ft).
          pose proof (role_and_deploy_no_zone_probe w
            (set_spotslr_exists
               (resolved (getRole w "AWSServiceRoleForEC2Spot"))
               (set_regions azs (validatedSettings (zones_requested rq m1)))) r)
            as Hno.
          rewrite in_app_iff in Hno. split.
          - intros [[Hk|Hl]|Hrd]; [assumption | | contradiction].
            simpl in Hl. destruct Hl as [Hl|[]]. discriminate.
          - intros Hk. left. now left. }
        split.
        -- intros azs' [= <-]. exists P, rq. simpl.
           split; [assumption|]. split; [reflexivity|]. split.
           ++ intros r. rewrite Hazs. apply Hkeys.
           ++ intros r. rewrite Hprobe, Hazs. reflexivity.
        -- intros r Hin. apply Hprobe in Hin. exists P, rq. simpl.
           split; [assumption|]. split; [reflexivity|]. now apply Hkeys.
      * rewrite (bind_Return _ HG). cbn [snd]. split.
        -- simpl. rewrite Hz. discriminate.
        -- intros r Hin. apply (zones_requested_probes rq m1 r Ft) in Hin.
           exists P, rq. simpl. split; [assumption|].
           split; [reflexivity|]. now apply Hkeys.
      * rewrite (bind_Throw _ HG). cbn [snd]. split.
        -- simpl. rewrite Hz. discriminate.
        -- intros r Hin. apply (zones_requested_probes rq m1 r Ft) in Hin.
           exists P, rq. simpl. split; [assumption|].
           split; [reflexivity|]. now apply Hkeys.
  - destruct (survey_quotas_trace w _ _ H) as (Ft & Hq & Hz & Hs).
    rewrite Forall_forall in Ft.
    rewrite (generate_stops_in_survey_quotas w _ _ H). simpl. split.
    + rewrite Hz. discriminate.
    + intros r Hin. specialize (Ft _ Hin). discriminate.
  - destruct (survey_quotas_trace w _ _ H) as (Ft & Hq & Hz & Hs).
    rewrite Forall_forall in Ft.
    rewrite (generate_throws_in_survey_quotas w _ _ H). simpl. split.
    + rewrite Hz. discriminate.
    + intros r Hin. specialize (Ft _ Hin). discriminate.
Qed.

Lemma survey_no_sink w :
  respects (fun _ => True) (fun e => is_sink e = false) (survey w).
Proof.
  unfold survey, survey_quotas, load_settings, check_settings, resolve_zone,
    enumerate_regions, aggregate_quotas, gate_and_zones, quota_gate,
    aggregate_zones.
  respects_all; try reflexivity; intros v Hv; exact Hv.
Qed.

(** C9.  Once the survey is complete, the lookup of the role
    AWSServiceRoleForEC2Spot decides only the flag: [spotslr_exists] is
    [true] when the lookup resolves and [false] when it rejects, the
    snapshot handed to the template engine carries that flag, and in both
    cases [generate] goes on to render and apply, returning what these
    give. *)
Theorem spot_role_lookup_sets_flag (w : World) (m : Machine) :
  survey w start = (Next tt, m) ->
  let flag := resolved (getRole w "AWSServiceRoleForEC2Spot") in
  let snapshot := set_spotslr_exists flag (validatedSettings m) in
  generate w =
    (Return (resolved (render w) && resolved (apply w)),
     emitting (role_events w ++ deploy_events w snapshot)
       {| validatedSettings := snapshot; trace := trace m |}) /\
  spotslr_exists (validatedSettings (snd (generate w))) = Some flag /\
  In (GetRole "AWSServiceRoleForEC2Spot") (trace (snd (generate w))) /\
  (forall snap, In (Export snap) (trace (snd (generate w))) <-> snap = snapshot) /\
  In Render (trace (snd (generate w))).
Proof.
  intros H flag snapshot.
  assert (Hrun : generate w =
    (Return (resolved (render w) && resolved (apply w)),
     emitting (role_events w ++ deploy_events w snapshot)
       {| validatedSettings := snapshot; trace := trace m |})).
  { unfold generate. rewrite (bind_run _ H). apply role_and_deploy_run. }
  pose proof (survey_no_sink w start) as HR. rewrite H in HR.
  destruct (HR Logic.I) as [_ [t [Et Ft]]]. simpl in Et. subst t.
  rewrite Forall_forall in Ft.
  rewrite Hrun. cbn [snd emitting trace validatedSettings].
  split; [reflexivity|]. split; [reflexivity|]. split; [|split].
  - rewrite in_app_iff. right. unfold role_events. now left.
  - intros snap. rewrite !in_app_iff. split.
    + intros [Hin|[Hin|Hin]].
      * specialize (Ft _ Hin). discriminate.
      * unfold role_events in Hin.
        destruct (resolved (getRole w "AWSServiceRoleForEC2Spot"));
          simpl in Hin; intuition discriminate.
      * unfold deploy_events in Hin.
        destruct (render w); destruct (apply w); simpl in Hin;
          intuition congruence.
    + intros ->. right. right. unfold deploy_events.
      apply in_app_iff. left. simpl. auto.
  - rewrite !in_app_iff. right. right. unfold deploy_events.
    apply in_app_iff. left. simpl. auto.
Qed.

(** ** The thresholds of the shell variant *)

(** C5.  With a largest quota of 2, positive and below 4, [generate] does
    not stop: it passes the gate, exports a snapshot and returns [true].
    The gate of deploy.sh leaves the script at the same value. *)
Theorem generate_proceeds_below_minimum :
  let w := Sample.account Sample.plain 2 (Resolved tt) in
  (exists m, survey_quotas w start
             = (Next ([("us-east-1", [("L-3819A6DF", 2)])], 2), m)) /\
  fst (generate w) = Return true /\
  In (Export
        {| dnsBaseName := None;
           providerRegions := Some ["us-east-1"; "us-west-2"];
           quotas := Some [("us-east-1", [("L-3819A6DF", 2)])];
           regions := Some [("us-east-1", ["us-east-1a"; "us-east-1c"])];
           spotslr_exists := Some true |})
     (trace (snd (generate w))) /\
  In Apply (trace (snd (generate w))) /\
  (forall key, deploy_sh_quota_gate 2 key = ShExit).
Proof.
  cbv zeta. split; [eexists; vm_compute; reflexivity|].
  split; [vm_compute; reflexivity|].
  split; [vm_compute; tauto|].
  split; [vm_compute; tauto|].
  intros key. reflexivity.
Qed.

(** C6.  With a largest quota of exactly 1, [generate] asks for nothing: it
    passes the gate, exports a snapshot and returns [true].  In deploy.sh
    the value 1 never reaches the question either, since the test against 4
    leaves the script first, whatever would be typed. *)
Theorem generate_proceeds_at_one_without_confirmation :
  let w := Sample.account Sample.plain 1 (Resolved tt) in
  (exists m, survey_quotas w start
             = (Next ([("us-east-1", [("L-3819A6DF", 1)])], 1), m)) /\
  fst (generate w) = Return true /\
  In (Export
        {| dnsBaseName := None;
           providerRegions := Some ["us-east-1"; "us-west-2"];
           quotas := Some [("us-east-1", [("L-3819A6DF", 1)])];
           regions := Some [("us-east-1", ["us-east-1a"; "us-east-1c"])];
           spotslr_exists := Some true |})
     (trace (snd (generate w))) /\
  In Apply (trace (snd (generate w))) /\
  (forall key, deploy_sh_quota_gate 1 key = ShExit).
Proof.
  cbv zeta. split; [eexists; vm_compute; reflexivity|].
  split; [vm_compute; reflexivity|].
  split; [vm_compute; tauto|].
  split; [vm_compute; tauto|].
  intros key. reflexivity.
Qed.

(** ** The theorems at sample accounts *)

Lemma invalid_settings_fail_closed_witness :
  let w := Sample.account Sample.with_typo 8 (Resolved tt) in
  (forall k, In k (badSettings Sample.with_typo) <->
             In k (JsObject.keys Sample.with_typo) /\ ~ In k allowedSettings) /\
  Forall (fun e => is_probe e = false) (trace (snd (generate w))) /\
  (forall snap, ~ In (Export snap) (trace (snd (generate w)))) /\
  validatedSettings (snd (generate w)) = emptySettings /\
  (forall u, auth w = Resolved u ->
     generate w =
       (Return false,
        emitting
          (map Log banner ++ profile_events Sample.with_typo ++ [Auth] ++
           map (fun k => Log (invalid_setting_line k))
             (badSettings Sample.with_typo) ++
           [Log "[!] Fix your settings, then try again."]) start)).
Proof.
  cbv zeta.
  apply (invalid_settings_fail_closed
           (Sample.account Sample.with_typo 8 (Resolved tt)) Sample.with_typo).
  - reflexivity.
  - exists "useSAML". split.
    + simpl. tauto.
    + simpl. intuition discriminate.
Defined.

Lemma dnsBaseName_strips_root_label_witness :
  let w := Sample.account (Sample.with_zone "Z123") 8 (Resolved tt) in
  dnsBaseName (validatedSettings (snd (generate w))) = Some "example.com" /\
  (forall snap, In (Export snap) (trace (snd (generate w))) ->
                dnsBaseName snap = Some "example.com").
Proof.
  cbv zeta.
  apply (dnsBaseName_strips_root_label
           (Sample.account (Sample.with_zone "Z123") 8 (Resolved tt))
           (Sample.with_zone "Z123") (JStr "Z123") "example.com" tt);
    reflexivity.
Defined.

Lemma dnsBaseName_drops_last_character_witness :
  let w := Sample.account (Sample.with_zone "Z456") 8 (Resolved tt) in
  dnsBaseName (validatedSettings (snd (generate w))) = Some "example.or".
Proof.
  cbv zeta.
  refine (proj1 (proj2
    (dnsBaseName_drops_last_character
       (Sample.account (Sample.with_zone "Z456") 8 (Resolved tt))
       (Sample.with_zone "Z456") (JStr "Z456") "example.org" tt
       _ _ _ _ _ _)) "example.or" "g"%char _); reflexivity.
Defined.

Lemma maxQuota_is_maximum_witness :
  let w := Sample.account Sample.plain 8 (Resolved tt) in
  exists P,
    providerRegions (validatedSettings (snd (survey_quotas w start))) = Some P /\
    8 = max_or_zero (observed w P) /\
    (forall v, In v (observed w P) -> v <= 8) /\
    (0 < 8 -> In 8 (observed w P)) /\
    (8 = 0 <-> [("us-east-1", [("L-3819A6DF", 8)])] = []) /\
    (8 = 0 <-> forall v, In v (observed w P) -> v <= 0) /\
    (forall r c v,
       lookup [("us-east-1", [("L-3819A6DF", 8)])] r c = Some v -> 0 < v <= 8) /\
    ((forall r Quotas q q',
        listServiceQuotas w r = Resolved Quotas -> In q Quotas -> In q' Quotas ->
        QuotaCode q = QuotaCode q' -> Value q = Value q') ->
     0 < 8 ->
     exists r c, lookup [("us-east-1", [("L-3819A6DF", 8)])] r c = Some 8).
Proof.
  cbv zeta.
  apply (maxQuota_is_maximum (Sample.account Sample.plain 8 (Resolved tt))
           [("us-east-1", [("L-3819A6DF", 8)])] 8
           (snd (survey_quotas (Sample.account Sample.plain 8 (Resolved tt))
                   start))).
  vm_compute. reflexivity.
Defined.

Lemma regionQuotas_keeps_positive_tracked_rows_witness :
  let w := Sample.account Sample.plain 8 (Resolved tt) in
  ~ In "us-west-2" (JsObject.keys [("us-east-1", [("L-3819A6DF", 8)])]) /\
  lookup [("us-east-1", [("L-3819A6DF", 8)])] "us-east-1" "L-3819A6DF" = Some 8.
Proof.
  cbv zeta.
  destruct (regionQuotas_keeps_positive_tracked_rows
              (Sample.account Sample.plain 8 (Resolved tt))
              [("us-east-1", [("L-3819A6DF", 8)])] 8
              (snd (survey_quotas (Sample.account Sample.plain 8 (Resolved tt))
                      start)))
    as [_ (P & _ & _ & _ & Hzero & _)].
  - vm_compute. reflexivity.
  - split; [|reflexivity].
    apply (Hzero "us-west-2" [ {| QuotaCode := "L-3819A6DF"; Value := 0 |} ]).
    + reflexivity.
    + intros q [<-|[]] _. simpl. lia.
Defined.

Lemma zero_quota_stops_before_zones_witness :
  let w := Sample.account Sample.plain 0 (Resolved tt) in
  fst (generate w) = Return false /\
  (forall r, ~ In (DescribeAvailabilityZones r) (trace (snd (generate w)))) /\
  Forall (fun e => is_sink e = false) (trace (snd (generate w))).
Proof.
  cbv zeta.
  destruct (zero_quota_stops_before_zones
              (Sample.account Sample.plain 0 (Resolved tt)) []
              (snd (survey_quotas (Sample.account Sample.plain 0 (Resolved tt))
                      start)))
    as (Hrun & Hzones & Hsink & _).
  - vm_compute. reflexivity.
  - split; [now rewrite Hrun | split; assumption].
Defined.

Lemma zone_map_keys_witness :
  let w := Sample.account Sample.plain 8 (Resolved tt) in
  exists P Q,
    providerRegions (validatedSettings (snd (generate w))) = Some P /\
    quotas (validatedSettings (snd (generate w))) = Some Q /\
    (forall r, In r (JsObject.keys [("us-east-1", ["us-east-1a"; "us-east-1c"])])
               <-> In r P /\ exists c v, lookup Q r c = Some v /\ 0 < v) /\
    (forall r, In (DescribeAvailabilityZones r) (trace (snd (generate w)))
               <-> In r (JsObject.keys
                           [("us-east-1", ["us-east-1a"; "us-east-1c"])])).
Proof.
  cbv zeta.
  apply (proj1 (zone_map_keys (Sample.account Sample.plain 8 (Resolved tt)))).
  vm_compute. reflexivity.
Defined.

Lemma spot_role_lookup_sets_flag_witness :
  let w := Sample.account Sample.plain 8 (Rejected "NoSuchEntity") in
  fst (generate w) = Return true /\
  spotslr_exists (validatedSettings (snd (generate w))) = Some false.
Proof.
  cbv zeta.
  destruct (spot_role_lookup_sets_flag
              (Sample.account Sample.plain 8 (Rejected "NoSuchEntity"))
              (snd (survey (Sample.account Sample.plain 8
                              (Rejected "NoSuchEntity")) start)))
    as (Hrun & Hflag & _).
  - vm_compute. reflexivity.
  - split; [now rewrite Hrun | exact Hflag].
Defined.


(** * More of the script *)

(** ** Cutting a run in two *)

Lemma bind_ext {A B} (c : M A) (k k' : A -> M B) m :
  (forall a m', k a m' = k' a m') -> bind c k m = bind c k' m.
Proof. intros H. unfold bind. destruct (c m) as [[a|b|e] m1]; auto. Qed.

Ltac bind_norm :=
  repeat (rewrite ?bind_assoc; first [reflexivity | apply bind_ext; intros]).

Lemma generate_split_zone w :
  generate w = (survey_zone w ;; after_zone w) start.
Proof.
  unfold generate, survey, survey_quotas, survey_zone, after_zone,
    after_regions.
  bind_norm.
Qed.

Lemma generate_split_regions w :
  generate w = (P <- survey_regions w ;; after_regions w P) start.
Proof.
  unfold generate, survey, survey_quotas, survey_regions, after_regions.
  bind_norm.
Qed.

Lemma survey_regions_split w m :
  survey_regions w m = (survey_zone w ;; enumerate_regions w) m.
Proof. unfold survey_regions, survey_zone. bind_norm. Qed.

Lemma survey_quotas_split w m :
  survey_quotas w m =
  (P <- survey_regions w ;;
   aggregate_quotas w P (quotaCodes (gpu_instance_families w))) m.
Proof. unfold survey_quotas, survey_regions. bind_norm. Qed.

(** ** Before the first probe *)

Lemma load_settings_unreadable w e m :
  npk_settings w = Rejected e ->
  load_settings w m =
  (Return false,
   emitting
     [Log e; Log (nl ++ "[!] Unable to open npk-settings.json. Does it exist?")]
     m).
Proof.
  intros H. unfold load_settings. rewrite H.
  unfold bind, log, emit, return_, emitting. simpl.
  now rewrite <- app_assoc.
Qed.

Lemma survey_zone_run w settings :
  npk_settings w = Resolved settings ->
  survey_zone w start =
  match auth w with
  | Rejected e => (Throw e, authenticated settings)
  | Resolved _ =>
      match badSettings settings with
      | [] => resolve_zone w settings (authenticated settings)
      | _ :: _ =>
          (Return false,
           emitting
             (map (fun k => Log (invalid_setting_line k)) (badSettings settings)
              ++ [Log "[!] Fix your settings, then try again."])
             (authenticated settings))
      end
  end.
Proof.
  intros Hs. unfold survey_zone, authenticated.
  run_next (forEach_log banner start).
  pose proof (load_settings_resolved w settings
                (emitting (map Log banner) start) Hs) as HL.
  rewrite emitting_app in HL.
  destruct (auth w) as [u|e].
  - run_next HL. destruct (badSettings settings) as [|k r] eqn:E.
    + assert (Hgood : badSettings settings = []) by assumption.
      now run_next (check_settings_good settings
                      (emitting (map Log banner ++ profile_events settings ++ [Auth])
                         start) Hgood).
    + assert (Hbad : badSettings settings <> []) by (rewrite E; discriminate).
      rewrite (bind_Return _ (check_settings_bad settings _ Hbad)).
      now rewrite E.
  - now rewrite (bind_Throw _ HL).
Qed.

Lemma requested_zone_Some settings id :
  requested_zone settings = Some id <->
  JsObject.get "route53Zone" settings = Some id /\ truthy id = true.
Proof.
  unfold requested_zone.
  destruct (JsObject.get "route53Zone" settings) as [id'|].
  - destruct (truthy id') eqn:E.
    + split; [intros [= <-]; auto | intros [[= <-] _]; reflexivity].
    + split; [discriminate | intros [[= <-] H]; congruence].
  - split; [discriminate | intros [H _]; discriminate].
Qed.

Lemma resolve_zone_not_requested w settings m :
  requested_zone settings = None -> resolve_zone w settings m = (Next tt, m).
Proof.
  unfold requested_zone, resolve_zone.
  destruct (JsObject.get "route53Zone" settings) as [id|]; [|reflexivity].
  destruct (truthy id); [discriminate | reflexivity].
Qed.

Lemma resolve_zone_rejected w settings id e m :
  requested_zone settings = Some id ->
  getHostedZone w id = Rejected e ->
  resolve_zone w settings m =
  (Return false,
   emitting
     [GetHostedZone id; Log ("[!] Unable to retrieve hosted zone. " ++ e)] m).
Proof.
  intros Hr Hz. apply requested_zone_Some in Hr. destruct Hr as [Hid Ht].
  unfold resolve_zone. rewrite Hid, Ht. simpl.
  unfold bind at 1. unfold emit at 1. rewrite Hz.
  unfold bind, log, emit, return_, emitting. simpl.
  now rewrite <- app_assoc.
Qed.

Lemma authenticated_quiet settings :
  Forall (fun e => quiet e = true) (trace (authenticated settings)).
Proof.
  unfold authenticated. cbn [emitting trace start].
  repeat (apply Forall_app; split).
  - constructor.
  - apply Forall_forall. intros e He. apply in_map_iff in He.
    now destruct He as [x [<- _]].
  - unfold profile_events.
    destruct (JsObject.get "awsProfile" settings) as [p|];
      [destruct (truthy p)|]; repeat constructor.
  - repeat constructor.
Qed.

Lemma invalid_lines_quiet (l : list string) :
  Forall (fun e => quiet e = true)
    (map (fun k => Log (invalid_setting_line k)) l
     ++ [Log "[!] Fix your settings, then try again."]).
Proof.
  apply Forall_app. split; [|repeat constructor].
  apply Forall_forall. intros e He. apply in_map_iff in He.
  now destruct He as [x [<- _]].
Qed.

(** X1.  When npk-settings.json cannot be read or parsed, [generate] prints
    the error and one line and returns [false] before anything else: no
    profile is selected, [sonnetry.auth()] is not called and no probe is
    issued; the process then prints the help lines and exits with 1. *)
Theorem unreadable_settings_stop_before_auth (w : World) (e : string) :
  npk_settings w = Rejected e ->
  generate w =
    (Return false,
     emitting
       (map Log banner ++
        [Log e; Log (nl ++ "[!] Unable to open npk-settings.json. Does it exist?")])
       start) /\
  main w =
    (Exit 1,
     map Log banner ++
     [Log e; Log (nl ++ "[!] Unable to open npk-settings.json. Does it exist?")] ++
     map Log help_banner)%list.
Proof.
  intros H.
  assert (Hrun : generate w =
    (Return false,
     emitting
       (map Log banner ++
        [Log e; Log (nl ++ "[!] Unable to open npk-settings.json. Does it exist?")])
       start)).
  { rewrite generate_split_zone. apply bind_Return. unfold survey_zone.
    run_next (forEach_log banner start).
    rewrite (bind_Return _ (load_settings_unreadable w e _ H)).
    now rewrite emitting_app. }
  split; [exact Hrun|]. unfold main. rewrite Hrun.
  cbn [emitting trace start]. rewrite app_nil_l. now rewrite <- app_assoc.
Qed.

(** X2.  When [sonnetry.auth()] rejects, [generate] throws that error right
    after the call: the settings keys are not checked, no probe is issued,
    and the process ends on the unhandled rejection, without the help
    lines. *)
Theorem rejected_auth_throws (w : World) (settings : Obj json) (e : string) :
  npk_settings w = Resolved settings ->
  auth w = Rejected e ->
  generate w = (Throw e, authenticated settings) /\
  main w = (UnhandledRejection e, trace (authenticated settings)) /\
  Forall (fun e => quiet e = true) (trace (snd (generate w))).
Proof.
  intros Hs Ha.
  assert (Hrun : generate w = (Throw e, authenticated settings)).
  { rewrite generate_split_zone. apply bind_Throw.
    rewrite (survey_zone_run w settings Hs). now rewrite Ha. }
  split; [exact Hrun|]. split.
  - unfold main. now rewrite Hrun.
  - rewrite Hrun. apply authenticated_quiet.
Qed.

(** X3.  When the settings ask for a hosted zone and its lookup rejects,
    [generate] prints the error and returns [false]: the lookup is the only
    probe of the run, and [validatedSettings] is still empty. *)
Theorem hosted_zone_failure_stops (w : World) (settings : Obj json)
  (u : unit) (id : json) (e : string) :
  npk_settings w = Resolved settings ->
  auth w = Resolved u ->
  badSettings settings = [] ->
  requested_zone settings = Some id ->
  getHostedZone w id = Rejected e ->
  generate w =
    (Return false,
     emitting
       [GetHostedZone id; Log ("[!] Unable to retrieve hosted zone. " ++ e)]
       (authenticated settings)) /\
  filter is_probe (trace (snd (generate w))) = [GetHostedZone id] /\
  validatedSettings (snd (generate w)) = emptySettings.
Proof.
  intros Hs Ha Hgood Hr Hz.
  assert (Hrun : generate w =
    (Return false,
     emitting
       [GetHostedZone id; Log ("[!] Unable to retrieve hosted zone. " ++ e)]
       (authenticated settings))).
  { rewrite generate_split_zone. apply bind_Return.
    rewrite (survey_zone_run w settings Hs), Ha, Hgood.
    now apply resolve_zone_rejected. }
  split; [exact Hrun|]. rewrite Hrun. split; [|reflexivity].
  cbn [snd emitting trace]. rewrite filter_app.
  replace (filter is_probe (trace (authenticated settings))) with (@nil Event).
  - reflexivity.
  - symmetry. pose proof (authenticated_quiet settings) as HQ.
    induction (trace (authenticated settings)) as [|x l IH]; [reflexivity|].
    inversion HQ as [|? ? Hx Hl]; subst. simpl.
    destruct x; try discriminate; simpl; auto.
Qed.

Lemma quiet_not_zone_nor_export e :
  quiet e = true ->
  (forall id, e <> GetHostedZone id) /\ (forall snap, e <> Export snap).
Proof. destruct e; try discriminate; split; intros; discriminate. Qed.

Lemma after_zone_keeps_dns w d :
  respects (fun v => dnsBaseName v = d)
    (fun e => (forall id, e <> GetHostedZone id) /\
              (forall snap, e = Export snap -> dnsBaseName snap = d))
    (after_zone w).
Proof.
  unfold after_zone, after_regions, enumerate_regions, aggregate_quotas,
    gate_and_zones, quota_gate, aggregate_zones, role_and_deploy,
    check_spot_role, deploy.
  respects_all;
    try (split; [intros id' Hid; discriminate | intros snap' Hs; discriminate]);
    try (intros v Hv; exact Hv).
  all: intros v Hv; split;
    [intros id' Hid; discriminate | intros snap' Hs; injection Hs as <-; exact Hv].
Qed.

(** X4.  When the settings hold no [route53Zone], or a falsy one (an empty
    string, 0, [false], [null]), the hosted zone is never looked up and no
    [dnsBaseName] is ever stored: neither the final [validatedSettings] nor
    any exported snapshot has one. *)
Theorem no_zone_requested_no_lookup (w : World) (settings : Obj json) :
  npk_settings w = Resolved settings ->
  requested_zone settings = None ->
  (forall id, ~ In (GetHostedZone id) (trace (snd (generate w)))) /\
  dnsBaseName (validatedSettings (snd (generate w))) = None /\
  (forall snap, In (Export snap) (trace (snd (generate w))) ->
                dnsBaseName snap = None).
Proof.
  intros Hs Hr. rewrite generate_split_zone.
  pose proof (survey_zone_run w settings Hs) as Hz.
  pose proof (authenticated_quiet settings) as HQ.
  rewrite Forall_forall in HQ.
  destruct (auth w) as [u|e].
  - destruct (badSettings settings) as [|k l] eqn:E.
    + rewrite (resolve_zone_not_requested w settings _ Hr) in Hz.
      rewrite (bind_run _ Hz).
      destruct (after_zone_keeps_dns w None (authenticated settings) eq_refl)
        as [HI [t [Et Ft]]].
      rewrite Forall_forall in Ft. rewrite Et.
      split; [|split; [exact HI|]].
      * intros id Hin. apply in_app_iff in Hin. destruct Hin as [Hin|Hin].
        -- now apply (proj1 (quiet_not_zone_nor_export _ (HQ _ Hin)) id).
        -- now apply (proj1 (Ft _ Hin) id).
      * intros snap Hin. apply in_app_iff in Hin. destruct Hin as [Hin|Hin].
        -- now destruct (proj2 (quiet_not_zone_nor_export _ (HQ _ Hin)) snap).
        -- now apply (proj2 (Ft _ Hin)).
    + rewrite (bind_Return _ Hz). cbn [snd emitting trace validatedSettings].
      pose proof (invalid_lines_quiet (k :: l)) as HL.
      rewrite Forall_forall in HL.
      split; [|split; [reflexivity|]].
      * intros id Hin. apply in_app_iff in Hin. destruct Hin as [Hin|Hin].
        -- now apply (proj1 (quiet_not_zone_nor_export _ (HQ _ Hin)) id).
        -- now apply (proj1 (quiet_not_zone_nor_export _ (HL _ Hin)) id).
      * intros snap Hin. apply in_app_iff in Hin. destruct Hin as [Hin|Hin].
        -- now destruct (proj2 (quiet_not_zone_nor_export _ (HQ _ Hin)) snap).
        -- now destruct (proj2 (quiet_not_zone_nor_export _ (HL _ Hin)) snap).
  - rewrite (bind_Throw _ Hz). cbn [snd].
    split; [|split; [reflexivity|]].
    + intros id Hin.
      now apply (proj1 (quiet_not_zone_nor_export _ (HQ _ Hin)) id).
    + intros snap Hin.
      now destruct (proj2 (quiet_not_zone_nor_export _ (HQ _ Hin)) snap).
Qed.

(** ** The list of regions *)

Lemma activeRegions_opted_in Regions :
  activeRegions Regions = map RegionName (filter opted_in Regions).
Proof.
  unfold activeRegions. f_equal. apply filter_ext. intros R.
  unfold opted_in, indexOf. cbn [indexOf_from].
  rewrite (String.eqb_sym (OptInStatus R) "opt-in-not-required").
  rewrite (String.eqb_sym (OptInStatus R) "opted-in").
  destruct (String.eqb "opt-in-not-required" (OptInStatus R)); [reflexivity|].
  destruct (String.eqb "opted-in" (OptInStatus R)); reflexivity.
Qed.

Lemma survey_zone_stage w :
  respects
    (fun v => v = emptySettings \/
              exists d, v = set_dnsBaseName d emptySettings)
    (fun e => zone_stage_event e = true) (survey_zone w).
Proof.
  unfold survey_zone, load_settings, check_settings, resolve_zone.
  respects_all; try reflexivity; try (intros v Hv; exact Hv).
  intros v [->|[d ->]]; right; eexists; reflexivity.
Qed.

Lemma survey_zone_trace w r m :
  survey_zone w start = (r, m) ->
  Forall (fun e => zone_stage_event e = true) (trace m) /\
  providerRegions (validatedSettings m) = None /\
  quotas (validatedSettings m) = None /\
  regions (validatedSettings m) = None /\
  spotslr_exists (validatedSettings m) = None.
Proof.
  intros H. pose proof (survey_zone_stage w start) as HR.
  rewrite H in HR. simpl in HR.
  destruct HR as [HI [t [-> Ft]]]; [now left|].
  split; [exact Ft|]. destruct HI as [->|[d ->]]; repeat split.
Qed.

Lemma after_regions_keeps_regions w P P' :
  respects (fun v => providerRegions v = Some P') (fun _ => True)
    (after_regions w P).
Proof.
  unfold after_regions, aggregate_quotas, gate_and_zones, quota_gate,
    aggregate_zones, role_and_deploy, check_spot_role, deploy.
  respects_all; try exact Logic.I; try (intros v Hv; exact Hv).
  intros v Hv. exact Logic.I.
Qed.

(** X5.  The regions the script works with are the names of the regions
    whose opt-in status is opt-in-not-required or opted-in, in the order in
    which the provider lists them; [providerRegions] holds that list from
    then on, whatever the rest of the run does. *)
Theorem providerRegions_are_opted_in (w : World) (P : list string)
  (m : Machine) :
  survey_regions w start = (Next P, m) ->
  exists Regions,
    describeRegions w = Resolved Regions /\
    P = map RegionName (filter opted_in Regions) /\
    (forall r, In r P <->
       exists R, In R Regions /\ RegionName R = r /\
                 (OptInStatus R = "opt-in-not-required" \/
                  OptInStatus R = "opted-in")) /\
    providerRegions (validatedSettings m) = Some P /\
    providerRegions (validatedSettings (snd (generate w))) = Some P.
Proof.
  intros H. pose proof H as H0. rewrite survey_regions_split in H0.
  apply bind_Next in H0. destruct H0 as (? & m1 & _ & HE).
  apply enumerate_regions_Next in HE. destruct HE as [[Regions [HR HP]] Hset].
  exists Regions. split; [assumption|].
  rewrite activeRegions_opted_in in HP. split; [assumption|].
  split; [|split; [assumption|]].
  - intros r. rewrite HP, in_map_iff. split.
    + intros [R [Hn HR']]. apply filter_In in HR'. destruct HR' as [Hin Ho].
      exists R. split; [assumption|]. split; [assumption|].
      unfold opted_in in Ho. apply orb_true_iff in Ho.
      destruct Ho as [Ho|Ho]; apply String.eqb_eq in Ho; auto.
    + intros [R [Hin [Hn Ho]]]. exists R. split; [assumption|].
      apply filter_In. split; [assumption|]. unfold opted_in.
      apply orb_true_iff.
      destruct Ho as [Ho|Ho]; rewrite Ho; [left | right]; reflexivity.
  - rewrite generate_split_regions, (bind_run _ H).
    now destruct (after_regions_keeps_regions w P P m Hset).
Qed.

(** X6.  When the list of regions cannot be retrieved, [generate] prints
    the error and returns [false]: no quota probe is issued, nothing is
    exported, and [providerRegions] stays unset. *)
Theorem region_list_failure_stops (w : World) (m : Machine) (e : string) :
  survey_zone w start = (Next tt, m) ->
  describeRegions w = Rejected e ->
  generate w =
    (Return false,
     emitting
       [DescribeRegions; Log ("[!] Unable to retrieve region list. " ++ e)] m) /\
  providerRegions (validatedSettings (snd (generate w))) = None /\
  Forall (fun e => is_quota_probe e = false /\ is_sink e = false)
    (trace (snd (generate w))).
Proof.
  intros H Hd.
  assert (Hrun : generate w =
    (Return false,
     emitting
       [DescribeRegions; Log ("[!] Unable to retrieve region list. " ++ e)] m)).
  { rewrite generate_split_zone, (bind_run _ H). unfold after_zone.
    apply bind_Return. unfold enumerate_regions. rewrite Hd.
    unfold bind, emit, log, return_, emitting. simpl.
    now rewrite <- app_assoc. }
  destruct (survey_zone_trace w _ _ H) as (Ft & Hp & _).
  split; [exact Hrun|]. rewrite Hrun. cbn [snd emitting trace validatedSettings].
  split; [exact Hp|]. apply Forall_app. split.
  - apply Forall_forall. intros x Hx. rewrite Forall_forall in Ft.
    specialize (Ft x Hx). destruct x; try discriminate; split; reflexivity.
  - repeat constructor.
Qed.

(** ** Promises that reject *)

Lemma promise_all_safe {A S} (Inv : S -> Prop)
  (l : list (string * Settled A)) (callback : S -> string -> A -> Settled S) :
  (forall s region data, Inv s -> In (region, Resolved data) l ->
     exists s', callback s region data = Resolved s' /\ Inv s') ->
  forall s m, Inv s ->
    (exists s', promise_all l callback s m = (Next s', m) /\ Inv s' /\
                Forall (fun x => resolved (snd x) = true) l) \/
    (exists region e, promise_all l callback s m = (Throw e, m) /\
                      In (region, Rejected e) l).
Proof.
  induction l as [|[region [data|e]] l IH]; intros Hcb s m Hs; simpl.
  - left. exists s. repeat split; [assumption | constructor].
  - destruct (Hcb s region data Hs) as [s1 [E Hs1]]; [now left|].
    rewrite E.
    destruct (IH (fun s0 r d H0 Hin => Hcb s0 r d H0 (or_intror Hin)) s1 m Hs1)
      as [[s' (Hrun & Hs' & Hall)]|[r [e (Hrun & Hin)]]].
    + left. exists s'. repeat split; try assumption. now constructor.
    + right. exists r, e. split; [assumption | now right].
  - right. exists region, e. split; [reflexivity | now left].
Qed.

Lemma settled_rejected {A} (f : string -> Settled A) picks (P : list string)
  region e :
  In (region, Rejected e) (settle picks (map (fun r => (r, f r)) P)) ->
  In region P /\ f region = Rejected e.
Proof.
  intros H.
  apply (Permutation_in _ (Permutation_sym (settle_Permutation _ _))) in H.
  apply in_map_iff in H. destruct H as [r [[= -> E] H]]. now split.
Qed.

Lemma settled_resolved {A} (f : string -> Settled A) picks (P : list string) :
  Forall (fun x => resolved (snd x) = true)
    (settle picks (map (fun r => (r, f r)) P)) ->
  forall r, In r P -> resolved (f r) = true.
Proof.
  intros H r Hr. rewrite Forall_forall in H.
  apply (H (r, f r)). apply (Permutation_in _ (settle_Permutation _ _)).
  apply in_map_iff. now exists r.
Qed.

Lemma aggregate_quotas_cases w P codes m :
  (exists acc,
     aggregate_quotas w P codes m
     = (Next acc, emitting (map ListServiceQuotas P) m) /\
     forall r, In r P -> resolved (listServiceQuotas w r) = true) \/
  (exists r e,
     aggregate_quotas w P codes m
     = (Throw e, emitting (map ListServiceQuotas P) m) /\
     In r P /\ listServiceQuotas w r = Rejected e).
Proof.
  unfold aggregate_quotas.
  rewrite (bind_run _ (forEach_emit P ListServiceQuotas m)).
  destruct (promise_all_safe (fun _ => True)
              (settle (quotaSettling w)
                 (map (fun region => (region, listServiceQuotas w region)) P))
              (quota_callback codes)
              (fun s region data _ _ =>
                 ex_intro _ _ (conj eq_refl Logic.I))
              ([], 0) (emitting (map ListServiceQuotas P) m) Logic.I)
    as [[acc (Hrun & _ & Hall)]|[r [e (Hrun & Hin)]]].
  - left. exists acc. split; [assumption|].
    exact (settled_resolved _ _ _ Hall).
  - right. exists r, e. split; [assumption|].
    now apply settled_rejected in Hin.
Qed.

Lemma survey_regions_stage w :
  respects
    (fun v => quotas v = None /\ regions v = None /\ spotslr_exists v = None)
    (fun e => early_event e = true /\ is_quota_probe e = false)
    (survey_regions w).
Proof.
  unfold survey_regions, load_settings, check_settings, resolve_zone,
    enumerate_regions.
  respects_all; try (split; reflexivity); intros v Hv; exact Hv.
Qed.

Lemma survey_regions_trace w r m :
  survey_regions w start = (r, m) ->
  Forall (fun e => early_event e = true /\ is_quota_probe e = false) (trace m) /\
  quotas (validatedSettings m) = None /\
  regions (validatedSettings m) = None /\
  spotslr_exists (validatedSettings m) = None.
Proof.
  intros H. pose proof (survey_regions_stage w start) as HR.
  rewrite H in HR. simpl in HR.
  destruct HR as [HI [t [-> Ft]]]; [repeat split|]. tauto.
Qed.

(** X7.  When the quota probe of some region rejects, [generate] throws the
    error of a rejecting region as soon as it settles: every region has been
    probed, no quota has been stored, no zone probe is issued and nothing is
    exported; the process ends on the unhandled rejection. *)
Theorem rejected_quota_probe_throws (w : World) (P : list string)
  (m : Machine) (r : string) :
  survey_regions w start = (Next P, m) ->
  In r P ->
  resolved (listServiceQuotas w r) = false ->
  exists r' e,
    In r' P /\ listServiceQuotas w r' = Rejected e /\
    generate w = (Throw e, emitting (map ListServiceQuotas P) m) /\
    fst (main w) = UnhandledRejection e /\
    quotas (validatedSettings (snd (generate w))) = None /\
    Forall (fun e => early_event e = true) (trace (snd (generate w))).
Proof.
  intros H Hr Hrej.
  destruct (aggregate_quotas_cases w P (quotaCodes (gpu_instance_families w)) m)
    as [[acc (_ & Hall)]|[r' [e (Hrun & Hin & He)]]].
  { specialize (Hall r Hr). congruence. }
  assert (Hgen : generate w = (Throw e, emitting (map ListServiceQuotas P) m)).
  { rewrite generate_split_regions, (bind_run _ H). unfold after_regions.
    now apply bind_Throw. }
  destruct (survey_regions_trace w _ _ H) as (Ft & Hq & _).
  exists r', e. repeat split; try assumption.
  - unfold main. now rewrite Hgen.
  - now rewrite Hgen.
  - rewrite Hgen. cbn [snd emitting trace]. apply Forall_app. split.
    + apply Forall_forall. intros x Hx. rewrite Forall_forall in Ft.
      now destruct (Ft x Hx).
    + apply Forall_forall. intros x Hx. apply in_map_iff in Hx.
      now destruct Hx as [y [<- _]].
Qed.




(** ** What the quota table holds *)

Lemma lookup_fold_rows (L : list (string * Quota)) acc r c :
  lookup (fst (fold_left record_row L acc)) r c =
  fold_left (pick_row r c) L (lookup (fst acc) r c).
Proof.
  revert acc; induction L as [|[region q] L IH]; intros acc; simpl.
  - reflexivity.
  - rewrite IH. f_equal. unfold record_row, pick_row. simpl.
    rewrite record_quota_lookup.
    now rewrite (String.eqb_sym c (QuotaCode q)).
Qed.

Lemma pick_rows_one_region r c r' (l : list Quota) o :
  fold_left (pick_row r c) (map (pair r') l) o =
  if String.eqb r r' then last_value_from o c l else o.
Proof.
  unfold last_value_from.
  revert o; induction l as [|q l IH]; intros o; simpl.
  - now destruct (String.eqb r r').
  - rewrite IH. unfold pick_row. simpl.
    destruct (String.eqb r r'); reflexivity.
Qed.

Lemma last_value_from_snoc o c l q :
  last_value_from o c (l ++ [q]) =
  if String.eqb (QuotaCode q) c then Some (Value q) else last_value_from o c l.
Proof. unfold last_value_from. now rewrite fold_left_app. Qed.

Lemma last_value_from_orelse o c l :
  last_value_from o c l =
  match last_value c l with
  | Some v => Some v
  | None => o
  end.
Proof.
  unfold last_value. induction l as [|q l IH] using rev_ind.
  - reflexivity.
  - rewrite !last_value_from_snoc.
    destruct (String.eqb (QuotaCode q) c); [reflexivity | exact IH].
Qed.

Lemma pick_rows_fold codes r c D (datas : list (string * list Quota)) o :
  (forall d, In (r, d) datas -> d = D) ->
  fold_left (pick_row r c) (rows codes datas) o =
  if existsb (fun rd => String.eqb r (fst rd)) datas
  then match last_value c (filter (tracked codes) D) with
       | Some v => Some v
       | None => o
       end
  else o.
Proof.
  revert o; induction datas as [|[r' d'] datas IH]; intros o HD.
  - reflexivity.
  - unfold rows in *. simpl. rewrite fold_left_app, pick_rows_one_region.
    rewrite IH by (intros d Hd; apply HD; now right).
    destruct (String.eqb_spec r r') as [<-|N]; simpl.
    + rewrite (HD d') by now left.
      rewrite last_value_from_orelse.
      destruct (last_value c (filter (tracked codes) D));
        destruct (existsb _ datas); reflexivity.
    + reflexivity.
Qed.

Lemma aggregate_quotas_datas w P codes m rq mq m' :
  aggregate_quotas w P codes m = (Next (rq, mq), m') ->
  exists datas,
    (forall r d, In (r, d) datas <->
                 In r P /\ listServiceQuotas w r = Resolved d) /\
    (rq, mq) = fold_left record_row (rows codes datas) ([], 0).
Proof.
  unfold aggregate_quotas.
  rewrite (bind_run _ (forEach_emit P ListServiceQuotas m)).
  intros H. apply promise_all_Next in H. destruct H as [datas [Hs Hc]].
  rewrite callbacks_quota in Hc. injection Hc as Hc.
  exists datas. split; [|now symmetry].
  intros r d. rewrite <- in_resolved_map, <- Hs. split.
  - intros H.
    apply (Permutation_in _ (Permutation_sym (settle_Permutation _ _))) in H.
    apply in_map_iff in H. destruct H as [r' [[= -> E] H]]. now split.
  - intros [H E]. apply (Permutation_in _ (settle_Permutation _ _)).
    apply in_map_iff. exists r. now rewrite E.
Qed.

Lemma survey_regions_Next w P m :
  survey_regions w start = (Next P, m) ->
  providerRegions (validatedSettings m) = Some P.
Proof.
  intros H. rewrite survey_regions_split in H.
  apply bind_Next in H. destruct H as (? & m1 & _ & HE).
  now apply enumerate_regions_Next in HE.
Qed.

(** X8.  In whatever order the quota promises settle, [regionQuotas] holds
    for a region of [providerRegions] and a code the value of the last row
    of that region's answer that has this code, a catalog code and a value
    above 0, and nothing when there is no such row; it holds nothing for
    other regions. *)
Theorem regionQuotas_holds_last_row (w : World) (regionQuotas : Obj (Obj Z))
  (maxQuota : Z) (m : Machine) :
  survey_quotas w start = (Next (regionQuotas, maxQuota), m) ->
  exists P,
    providerRegions (validatedSettings m) = Some P /\
    (forall r c, In r P -> lookup regionQuotas r c = expected_quota w r c) /\
    (forall r c, ~ In r P -> lookup regionQuotas r c = None).
Proof.
  intros H. rewrite survey_quotas_split in H.
  apply bind_Next in H. destruct H as (P & m1 & HP & H).
  apply survey_regions_Next in HP.
  destruct (aggregate_quotas_cases w P (quotaCodes (gpu_instance_families w)) m1)
    as [[acc (Hrun & Hall)]|[r' [e (Hrun & _)]]]; [|congruence].
  rewrite Hrun in H. injection H as -> <-.
  apply aggregate_quotas_datas in Hrun. destruct Hrun as [datas [Hd Hfold]].
  exists P. split; [exact HP|].
  assert (Hl : forall r c, lookup regionQuotas r c =
              fold_left (pick_row r c)
                (rows (quotaCodes (gpu_instance_families w)) datas) None).
  { intros r c.
    pose proof (lookup_fold_rows
                  (rows (quotaCodes (gpu_instance_families w)) datas)
                  ([], 0) r c) as HL.
    now rewrite <- Hfold in HL. }
  split.
  - intros r c Hr. rewrite Hl. unfold expected_quota.
    specialize (Hall r Hr).
    destruct (listServiceQuotas w r) as [D|e] eqn:E; [|discriminate].
    rewrite (pick_rows_fold _ r c D).
    + replace (existsb (fun rd => String.eqb r (fst rd)) datas) with true.
      * now destruct (last_value c _).
      * symmetry. apply existsb_exists. exists (r, D).
        split; [now apply Hd | apply String.eqb_refl].
    + intros d Hin. apply Hd in Hin. destruct Hin as [_ Hin]. congruence.
  - intros r c Hr. rewrite Hl.
    destruct (listServiceQuotas w r) as [D|e] eqn:E.
    + rewrite (pick_rows_fold _ r c D).
      * replace (existsb (fun rd => String.eqb r (fst rd)) datas) with false;
          [reflexivity|].
        symmetry. apply not_true_is_false. intros Hex.
        apply existsb_exists in Hex. destruct Hex as [[r' d] [Hin Heq]].
        apply String.eqb_eq in Heq. simpl in Heq. subst r'.
        apply Hd in Hin. tauto.
      * intros d Hin. apply Hd in Hin. tauto.
    + rewrite (pick_rows_fold _ r c []).
      * replace (existsb (fun rd => String.eqb r (fst rd)) datas) with false;
          [reflexivity|].
        symmetry. apply not_true_is_false. intros Hex.
        apply existsb_exists in Hex. destruct Hex as [[r' d] [Hin Heq]].
        apply String.eqb_eq in Heq. simpl in Heq. subst r'.
        apply Hd in Hin. tauto.
      * intros d Hin. apply Hd in Hin. tauto.
Qed.

(** ** Where a run can end *)

Section OnlyFalse.

Lemma only_false_ret {A} (a : A) : returns_only_false (ret a).
Proof. intros m b m' H. discriminate. Qed.

Lemma only_false_throw {A} (e : string) : returns_only_false (@throw A e).
Proof. intros m b m' H. discriminate. Qed.

Lemma only_false_return {A} : returns_only_false (@return_ A false).
Proof. intros m b m' H. now injection H as <- _. Qed.

Lemma only_false_emit (e : Event) : returns_only_false (emit e).
Proof. intros m b m' H. discriminate. Qed.

Lemma only_false_update f : returns_only_false (update f).
Proof. intros m b m' H. discriminate. Qed.

Lemma only_false_bind {A B} (c : M A) (k : A -> M B) :
  returns_only_false c -> (forall a, returns_only_false (k a)) ->
  returns_only_false (bind c k).
Proof.
  intros Hc Hk m b m'. unfold bind.
  destruct (c m) as [[a|b1|e] m1] eqn:E.
  - apply Hk.
  - intros [= <- <-]. exact (Hc _ _ _ E).
  - discriminate.
Qed.

Lemma only_false_when (b : bool) (c : M unit) :
  returns_only_false c -> returns_only_false (when b c).
Proof. destruct b; simpl; [easy | intros _; apply only_false_ret]. Qed.

Lemma only_false_forEach {A} (l : list A) (f : A -> M unit) :
  (forall x, returns_only_false (f x)) -> returns_only_false (forEach l f).
Proof.
  intros Hf. induction l as [|x r IH]; simpl.
  - apply only_false_ret.
  - apply only_false_bind; [apply Hf | intros _; exact IH].
Qed.

Lemma only_false_promise_all {A S} (l : list (string * Settled A))
  (callback : S -> string -> A -> Settled S) (s : S) :
  returns_only_false (promise_all l callback s).
Proof.
  revert s; induction l as [|[region [data|e]] r IH]; intros s; simpl.
  - apply only_false_ret.
  - destruct (callback s region data); [apply IH | apply only_false_throw].
  - apply only_false_throw.
Qed.

End OnlyFalse.

Ltac only_false_step :=
  first
    [ apply only_false_bind; [|intros ?]
    | apply only_false_ret
    | apply only_false_return
    | apply only_false_throw
    | apply only_false_when
    | apply only_false_forEach; intros ?
    | apply only_false_promise_all
    | apply only_false_emit
    | apply only_false_update
    | match goal with
      | |- returns_only_false (match ?x with _ => _ end) => destruct x
      | |- returns_only_false (let '(_, _) := ?x in _) => destruct x
      end ].

Lemma survey_returns_only_false w : returns_only_false (survey w).
Proof.
  unfold survey, survey_quotas, load_settings, check_settings, resolve_zone,
    enumerate_regions, aggregate_quotas, gate_and_zones, quota_gate,
    aggregate_zones, log.
  repeat only_false_step.
Qed.

Section ZoneContent.
Import JsObject JsObjectFacts.

Lemma zone_callback_total azs region data :
  In region (keys azs) ->
  exists azs',
    zone_callback azs region data = Resolved azs' /\
    keys azs' = keys azs /\
    get region azs' =
      option_map (fun z => (z ++ zone_names data)%list) (get region azs) /\
    (forall r, r <> region -> get r azs' = get r azs).
Proof.
  unfold zone_callback, zone_names.
  generalize (filter (fun a => String.eqb (State a) "available") data).
  intros l. revert azs. induction l as [|a l IH]; intros azs Hin; simpl.
  - exists azs. repeat split; try reflexivity.
    destruct (get region azs); simpl; [now rewrite app_nil_r | reflexivity].
  - destruct (proj1 (in_keys_get azs region) Hin) as [z Hz]. rewrite Hz.
    assert (Hk : keys (set region (z ++ [ZoneName a])%list azs) = keys azs)
      by now apply keys_set_present.
    destruct (IH (set region (z ++ [ZoneName a])%list azs)) as
      (azs' & Hrun & Hkeys & Hget & Hother); [now rewrite Hk|].
    exists azs'. split; [exact Hrun|]. split; [congruence|]. split.
    + rewrite Hget, get_set_same. simpl. now rewrite <- app_assoc.
    + intros r Hr. rewrite (Hother r Hr). apply get_set_other. congruence.
Qed.

Lemma callbacks_zone_content (datas : list (string * list AvailabilityZone))
  azs0 :
  NoDup (map fst datas) ->
  (forall r, In r (map fst datas) -> In r (keys azs0)) ->
  exists azs,
    callbacks zone_callback datas azs0 = Resolved azs /\
    keys azs = keys azs0 /\
    (forall r d, In (r, d) datas ->
       get r azs = option_map (fun z => (z ++ zone_names d)%list) (get r azs0)) /\
    (forall r, ~ In r (map fst datas) -> get r azs = get r azs0).
Proof.
  revert azs0; induction datas as [|[r0 d0] datas IH]; intros azs0 Hnd Hin.
  - exists azs0. simpl. repeat split; try reflexivity. intros r d [].
  - simpl in Hnd. inversion Hnd as [|? ? Hr0 Hnd']; subst.
    destruct (zone_callback_total azs0 r0 d0) as
      (azs1 & Hrun & Hkeys & Hget & Hother); [apply Hin; now left|].
    destruct (IH azs1 Hnd') as (azs & Hrun' & Hkeys' & Hget' & Hother').
    { intros r Hr. rewrite Hkeys. apply Hin. now right. }
    exists azs. simpl. rewrite Hrun. split; [exact Hrun'|].
    split; [congruence|]. split.
    + intros r d [[= -> ->]|Hd].
      * rewrite (Hother' r Hr0). exact Hget.
      * rewrite (Hget' r d Hd). rewrite Hother; [reflexivity|].
        intros ->. apply Hr0. apply in_map_iff. now exists (r0, d).
    + intros r Hr. rewrite Hother'.
      * apply Hother. intros ->. apply Hr. now left.
      * intros H. apply Hr. now right.
Qed.

Lemma empty_zones_get (l : list string) r :
  In r l -> get r (empty_zones l) = Some [].
Proof.
  unfold empty_zones.
  assert (G : forall (azs : Obj (list string)),
             In r l \/ get r azs = Some [] ->
             get r (fold_left (fun azs region => set region [] azs) l azs)
             = Some []).
  { induction l as [|x l IH]; intros azs; simpl.
    - intros [[]|H]; exact H.
    - intros H. apply IH.
      destruct (string_dec x r) as [->|N].
      + right. apply get_set_same.
      + destruct H as [[E|H]|H]; [contradiction | now left |].
        right. now rewrite get_set_other. }
  intros H. apply G. now left.
Qed.

Lemma empty_zones_keys_list (l : list string) :
  NoDup l -> keys (empty_zones l) = l.
Proof.
  unfold empty_zones.
  assert (G : forall (azs : Obj (list string)),
             NoDup l -> (forall x, In x l -> ~ In x (keys azs)) ->
             keys (fold_left (fun azs region => set region [] azs) l azs)
             = (keys azs ++ l)%list).
  { induction l as [|x l IH]; intros azs Hnd Hdis; simpl.
    - now rewrite app_nil_r.
    - inversion Hnd as [|? ? Hx Hnd']; subst.
      rewrite IH; [|assumption|].
      + rewrite keys_set_absent by (apply Hdis; now left).
        now rewrite <- app_assoc.
      + intros y Hy Hin. apply in_keys_set in Hin.
        destruct Hin as [->|Hin]; [contradiction|].
        apply (Hdis y); [now right | assumption]. }
  intros Hnd. rewrite G; [reflexivity | assumption | intros x _ []].
Qed.

End ZoneContent.

Lemma zones_cases w (regionQuotas : Obj (Obj Z)) m :
  (exists azs,
     promise_all
       (settle (zoneSettling w)
          (map (fun region => (region, describeAvailabilityZones w region))
             (JsObject.keys regionQuotas)))
       zone_callback (empty_zones (JsObject.keys regionQuotas)) m
     = (Next azs, m) /\
     forall r, In r (JsObject.keys regionQuotas) ->
               resolved (describeAvailabilityZones w r) = true) \/
  (exists r e,
     promise_all
       (settle (zoneSettling w)
          (map (fun region => (region, describeAvailabilityZones w region))
             (JsObject.keys regionQuotas)))
       zone_callback (empty_zones (JsObject.keys regionQuotas)) m
     = (Throw e, m) /\
     In r (JsObject.keys regionQuotas) /\
     describeAvailabilityZones w r = Rejected e).
Proof.
  set (K := JsObject.keys regionQuotas).
  destruct (promise_all_safe
              (fun azs => forall r, In r K -> In r (JsObject.keys azs))
              (settle (zoneSettling w)
                 (map (fun region => (region, describeAvailabilityZones w region)) K))
              zone_callback) with (s := empty_zones K) (m := m)
    as [[azs (Hrun & _ & Hall)]|[r [e (Hrun & Hin)]]].
  - intros azs region data Hinv Hin.
    assert (HK : In region K).
    { apply (Permutation_in _ (Permutation_sym (settle_Permutation _ _))) in Hin.
      apply in_map_iff in Hin. now destruct Hin as [r' [[= -> _] H]]. }
    destruct (zone_callback_total azs region data (Hinv _ HK))
      as (azs' & Hrun & Hkeys & _).
    exists azs'. split; [exact Hrun|]. intros r Hr. rewrite Hkeys. now apply Hinv.
  - intros r Hr. now apply empty_zones_keys.
  - left. exists azs. split; [exact Hrun|].
    exact (settled_resolved _ _ _ Hall).
  - right. exists r, e. split; [exact Hrun|].
    now apply settled_rejected in Hin.
Qed.

(** A run either completes the survey, or ends before it without a zone map
    and without a call into the template engine. *)
Lemma generate_cases w :
  (exists rq mq m1 azs,
     survey_quotas w start = (Next (rq, mq), m1) /\
     mq <> 0 /\
     promise_all
       (settle (zoneSettling w)
          (map (fun region => (region, describeAvailabilityZones w region))
             (JsObject.keys rq)))
       zone_callback (empty_zones (JsObject.keys rq)) (zones_requested rq m1)
     = (Next azs, zones_requested rq m1) /\
     survey w start = (Next tt, zones_stored azs (zones_requested rq m1))) \/
  ((generate w = (Return false, snd (generate w)) \/
    exists e, generate w = (Throw e, snd (generate w))) /\
   regions (validatedSettings (snd (generate w))) = None /\
   spotslr_exists (validatedSettings (snd (generate w))) = None /\
   Forall (fun e => is_sink e = false) (trace (snd (generate w)))).
Proof.
  assert (Hsink : forall l, Forall (fun e => early_event e = true) l ->
                            Forall (fun e => is_sink e = false) l).
  { intros l Hl. apply Forall_forall. intros x Hx. rewrite Forall_forall in Hl.
    specialize (Hl x Hx). destruct x; try discriminate; reflexivity. }
  destruct (survey_quotas w start) as [[[rq mq]|b|e] m1] eqn:H.
  - destruct (survey_quotas_trace w _ _ H) as (Ft & Hq & Hz & Hs).
    destruct (Z.eq_dec mq 0) as [->|Hn].
    + right. rewrite (generate_after_quotas w _ _ H).
      rewrite (bind_Return _ (gate_zero w rq m1)).
      cbn [snd emitting trace validatedSettings].
      split; [now left|]. split; [assumption|]. split; [assumption|].
      apply Forall_app. split; [now apply Hsink | repeat constructor].
    + pose proof (gate_nonzero w rq mq m1 Hn) as HG.
      destruct (zones_cases w rq (zones_requested rq m1))
        as [[azs (Hrun & _)]|[r [e (Hrun & _)]]]; rewrite Hrun in HG.
      * left. exists rq, mq, m1, azs. split; [reflexivity|].
        split; [assumption|]. split; [assumption|].
        unfold survey. now rewrite (bind_run _ H).
      * right. rewrite (generate_after_quotas w _ _ H).
        rewrite (bind_Throw _ HG). cbn [snd].
        split; [right; now exists e|].
        unfold zones_requested. cbn [emitting trace validatedSettings].
        split; [exact Hz|]. split; [exact Hs|].
        apply Forall_app. split; [now apply Hsink|].
        constructor; [reflexivity|]. apply Forall_forall. intros x Hx.
        apply in_map_iff in Hx. now destruct Hx as [y [<- _]].
  - destruct (survey_quotas_trace w _ _ H) as (Ft & Hq & Hz & Hs).
    assert (Hb : b = false).
    { assert (Hsv : survey w start = (Return b, m1))
        by (unfold survey; now apply bind_Return).
      exact (survey_returns_only_false w _ _ _ Hsv). }
    subst b. right. rewrite (generate_stops_in_survey_quotas w _ _ H).
    cbn [snd]. split; [now left|]. split; [assumption|].
    split; [assumption | now apply Hsink].
  - destruct (survey_quotas_trace w _ _ H) as (Ft & Hq & Hz & Hs).
    right. rewrite (generate_throws_in_survey_quotas w _ _ H).
    cbn [snd]. split; [right; now exists e|]. split; [assumption|].
    split; [assumption | now apply Hsink].
Qed.

Lemma generate_completes w m :
  survey w start = (Next tt, m) ->
  generate w =
  (Return (resolved (render w) && resolved (apply w)),
   emitting
     (role_events w ++
      deploy_events w
        (set_spotslr_exists (resolved (getRole w "AWSServiceRoleForEC2Spot"))
           (validatedSettings m)))
     {| validatedSettings :=
          set_spotslr_exists (resolved (getRole w "AWSServiceRoleForEC2Spot"))
            (validatedSettings m);
        trace := trace m |}).
Proof.
  intros H. unfold generate. rewrite (bind_run _ H).
  apply role_and_deploy_run.
Qed.

(** X10.  When the zone probe of a region with a quota rejects, [generate]
    throws the error of a rejecting region: the quotas are already stored,
    every region with a quota has been probed, no zone map is stored and
    nothing is handed to the template engine. *)
Theorem rejected_zone_probe_throws (w : World) (regionQuotas : Obj (Obj Z))
  (maxQuota : Z) (m : Machine) (r : string) :
  survey_quotas w start = (Next (regionQuotas, maxQuota), m) ->
  maxQuota <> 0 ->
  In r (JsObject.keys regionQuotas) ->
  resolved (describeAvailabilityZones w r) = false ->
  exists r' e,
    In r' (JsObject.keys regionQuotas) /\
    describeAvailabilityZones w r' = Rejected e /\
    generate w = (Throw e, zones_requested regionQuotas m) /\
    fst (main w) = UnhandledRejection e /\
    quotas (validatedSettings (snd (generate w))) = Some regionQuotas /\
    regions (validatedSettings (snd (generate w))) = None /\
    Forall (fun e => is_sink e = false) (trace (snd (generate w))).
Proof.
  intros H Hn Hr Hrej.
  pose proof (gate_nonzero w regionQuotas maxQuota m Hn) as HG.
  destruct (zones_cases w regionQuotas (zones_requested regionQuotas m))
    as [[azs (_ & Hall)]|[r' [e (Hrun & Hin & He)]]].
  { specialize (Hall r Hr). congruence. }
  rewrite Hrun in HG.
  assert (Hgen : generate w = (Throw e, zones_requested regionQuotas m)).
  { rewrite (generate_after_quotas w _ _ H). now apply bind_Throw. }
  destruct (survey_quotas_trace w _ _ H) as (Ft & Hq & Hz & Hs).
  exists r', e. split; [assumption|]. split; [assumption|].
  split; [assumption|]. split; [unfold main; now rewrite Hgen|].
  rewrite Hgen. unfold zones_requested.
  cbn [snd emitting trace validatedSettings].
  split; [reflexivity|]. split; [exact Hz|].
  apply Forall_app. split.
  - apply Forall_forall. intros x Hx. rewrite Forall_forall in Ft.
    specialize (Ft x Hx). destruct x; try discriminate; reflexivity.
  - constructor; [reflexivity|]. apply Forall_forall. intros x Hx.
    apply in_map_iff in Hx. now destruct Hx as [y [<- _]].
Qed.

(** ** The zone map and the snapshot *)

Lemma regionQuotas_shape w (regionQuotas : Obj (Obj Z)) (maxQuota : Z) m :
  survey_quotas w start = (Next (regionQuotas, maxQuota), m) ->
  NoDup (JsObject.keys regionQuotas) /\
  (maxQuota <> 0 -> regionQuotas <> []).
Proof.
  intros H. apply survey_quotas_Next in H.
  destruct H as (P & HP & _ & _ & L & HL & Hfold).
  pose proof (fold_record_rows L) as HF. cbv zeta in HF.
  rewrite <- Hfold in HF. simpl in HF.
  destruct HF as (_ & _ & Hk & Hn & _ & Hat & _).
  split; [exact Hn|]. intros Hz ->.
  destruct Hat as [Hat|[[r q] [Hin _]]]; [contradiction|].
  apply (proj2 (Hk r)). now exists q.
Qed.

Lemma zones_datas w (K : list string) picks
  (datas : list (string * list AvailabilityZone)) :
  settle picks (map (fun region => (region, describeAvailabilityZones w region)) K)
  = map (fun rd => (fst rd, Resolved (snd rd))) datas ->
  Permutation K (map fst datas) /\
  (forall r, In r K ->
     exists d, describeAvailabilityZones w r = Resolved d /\ In (r, d) datas).
Proof.
  intros Hs. split.
  - pose proof (Permutation_map fst
                  (settle_Permutation picks
                     (map (fun region =>
                             (region, describeAvailabilityZones w region)) K)))
      as HP.
    rewrite Hs in HP. rewrite !map_map in HP. simpl in HP.
    now rewrite map_id in HP.
  - intros r Hr.
    assert (In (r, describeAvailabilityZones w r)
              (map (fun rd => (fst rd, Resolved (snd rd))) datas)) as H.
    { rewrite <- Hs. apply (Permutation_in _ (settle_Permutation _ _)).
      apply in_map_iff. now exists r. }
    apply in_map_iff in H. destruct H as [[r' d] [[= -> E] Hin]].
    exists d. split; [now symmetry | assumption].
Qed.

(** X9.  When the zone map is stored, it has the keys of the quota table,
    in the same order and each once, and holds for each of these regions
    the names of the zones whose state is available, in the order of that
    region's answer, in whatever order the zone promises settled. *)
Theorem zone_map_lists_available_zones (w : World) (azs : Obj (list string)) :
  regions (validatedSettings (snd (generate w))) = Some azs ->
  exists Q,
    quotas (validatedSettings (snd (generate w))) = Some Q /\
    JsObject.keys azs = JsObject.keys Q /\
    NoDup (JsObject.keys azs) /\
    forall r, In r (JsObject.keys azs) ->
      exists AvailabilityZones,
        describeAvailabilityZones w r = Resolved AvailabilityZones /\
        JsObject.get r azs = Some (zone_names AvailabilityZones).
Proof.
  intros Hz.
  destruct (generate_cases w) as
    [(rq & mq & m1 & azs0 & Hq & Hn & Hrun & Hs)|(_ & Hnone & _)];
    [|congruence].
  rewrite (generate_completes w _ Hs) in *.
  cbn [snd emitting validatedSettings] in *. simpl in Hz.
  injection Hz as <-. exists rq. split; [reflexivity|].
  destruct (regionQuotas_shape w _ _ _ Hq) as [Hnd _].
  apply promise_all_Next in Hrun. destruct Hrun as [datas [Hset Hc]].
  destruct (zones_datas w _ _ _ Hset) as [Hperm Hin].
  destruct (callbacks_zone_content datas (empty_zones (JsObject.keys rq)))
    as (azs' & Hc' & Hkeys & Hget & _).
  { exact (Permutation_NoDup Hperm Hnd). }
  { intros r Hr. apply empty_zones_keys.
    exact (Permutation_in _ (Permutation_sym Hperm) Hr). }
  rewrite Hc in Hc'. injection Hc' as <-.
  rewrite Hkeys, (empty_zones_keys_list _ Hnd).
  split; [reflexivity|]. split; [assumption|].
  intros r Hr. destruct (Hin r Hr) as [d [Hd Hrd]].
  exists d. split; [assumption|].
  rewrite (Hget r d Hrd), (empty_zones_get _ r Hr). reflexivity.
Qed.

Lemma exports_after_survey w m snap :
  survey w start = (Next tt, m) ->
  In (Export snap) (trace (snd (generate w))) ->
  snap = validatedSettings (snd (generate w)).
Proof.
  intros H. rewrite (generate_completes w _ H).
  cbn [snd emitting trace validatedSettings].
  pose proof (survey_no_sink w start) as HR. rewrite H in HR.
  destruct (HR Logic.I) as [_ [t [Et Ft]]]. simpl in Et. subst t.
  rewrite Forall_forall in Ft. rewrite !in_app_iff.
  intros [Hin|[Hin|Hin]].
  - specialize (Ft _ Hin). discriminate.
  - unfold role_events in Hin.
    destruct (resolved (getRole w "AWSServiceRoleForEC2Spot"));
      simpl in Hin; intuition discriminate.
  - unfold deploy_events in Hin.
    destruct (render w); destruct (apply w); simpl in Hin;
      intuition congruence.
Qed.

(** X12.  A snapshot handed to the template engine is complete and final:
    it is the [validatedSettings] the run ends with, and it holds the
    regions, a quota table that is not empty, a zone map with the keys of
    that table, and the spot role flag. *)
Theorem exported_snapshot_is_complete (w : World) (snap : ValidatedSettings) :
  In (Export snap) (trace (snd (generate w))) ->
  snap = validatedSettings (snd (generate w)) /\
  exists P Q Z b,
    providerRegions snap = Some P /\
    quotas snap = Some Q /\ Q <> [] /\
    regions snap = Some Z /\
    (forall r, In r (JsObject.keys Z) <-> In r (JsObject.keys Q)) /\
    spotslr_exists snap = Some b.
Proof.
  intros Hin.
  destruct (generate_cases w) as
    [(rq & mq & m1 & azs & Hq & Hn & Hrun & Hs)|(_ & _ & _ & Hsink)].
  - pose proof (exports_after_survey w _ snap Hs Hin) as ->.
    split; [reflexivity|].
    destruct (regionQuotas_keys w _ _ _ Hq) as (P & HP & _).
    destruct (regionQuotas_shape w _ _ _ Hq) as [_ Hne].
    rewrite (generate_completes w _ Hs).
    cbn [snd emitting validatedSettings]. simpl.
    exists P, rq, azs, (resolved (getRole w "AWSServiceRoleForEC2Spot")).
    split; [assumption|]. split; [reflexivity|]. split; [now apply Hne|].
    split; [reflexivity|]. split; [|reflexivity].
    exact (zones_keys w rq _ _ _ Hrun).
  - rewrite Forall_forall in Hsink. specialize (Hsink _ Hin). discriminate.
Qed.

(** X13.  The configuration is applied only after it has been rendered
    without error: whenever [sonnetry.apply] is called, [render] resolved
    and the export, the render and the write came before. *)
Theorem apply_only_after_render (w : World) :
  In Apply (trace (snd (generate w))) ->
  resolved (render w) = true /\
  exists snap t1 t2 t3 t4,
    trace (snd (generate w))
    = (t1 ++ Export snap :: t2 ++ Render :: t3 ++ WriteConfigs :: t4)%list /\
    In Apply t4 /\
    Forall (fun e => is_sink e = false) t1.
Proof.
  intros Hin.
  destruct (generate_cases w) as
    [(rq & mq & m1 & azs & Hq & Hn & Hrun & Hs)|(_ & _ & _ & Hsink)].
  - rewrite (generate_completes w _ Hs) in *.
    cbn [snd emitting trace validatedSettings] in *.
    pose proof (survey_no_sink w start) as HR. rewrite Hs in HR.
    destruct (HR Logic.I) as [_ [t [Et Ft]]]. simpl in Et. subst t.
    set (m := zones_stored azs (zones_requested rq m1)) in *.
    set (snapshot := set_spotslr_exists _ _) in *.
    assert (Hrole : Forall (fun e => is_sink e = false) (role_events w)).
    { unfold role_events.
      destruct (resolved (getRole w "AWSServiceRoleForEC2Spot"));
        repeat constructor. }
    rewrite !in_app_iff in Hin. destruct Hin as [Hin|[Hin|Hin]].
    + rewrite Forall_forall in Ft. specialize (Ft _ Hin). discriminate.
    + rewrite Forall_forall in Hrole. specialize (Hrole _ Hin). discriminate.
    + unfold deploy_events in *. destruct (render w) as [u|e].
      * split; [reflexivity|].
        exists snapshot,
          (trace m ++ role_events w ++
           [Log (nl ++ "[*] All prerequisites finished. Generating infrastructure configurations.")])%list,
          [], [].
        eexists. split; [|split].
        -- rewrite <- !app_assoc. simpl. reflexivity.
        -- right. now left.
        -- apply Forall_app. split; [exact Ft|].
           apply Forall_app. split; [exact Hrole | repeat constructor].
      * simpl in Hin. intuition discriminate.
  - rewrite Forall_forall in Hsink. specialize (Hsink _ Hin). discriminate.
Qed.

(** ** When a run succeeds *)






(** ** The gate of deploy.sh *)


(** ** These theorems at sample accounts *)

Lemma unreadable_settings_stop_before_auth_witness :
  fst (main (Outage.settings_unreadable "ENOENT"
               (Sample.account Sample.plain 8 (Resolved tt)))) = Exit 1.
Proof.
  destruct (unreadable_settings_stop_before_auth
              (Outage.settings_unreadable "ENOENT"
                 (Sample.account Sample.plain 8 (Resolved tt))) "ENOENT")
    as [_ Hmain].
  - reflexivity.
  - now rewrite Hmain.
Defined.

Lemma rejected_auth_throws_witness :
  fst (main (Outage.auth_rejected "ExpiredToken"
               (Sample.account Sample.with_typo 8 (Resolved tt))))
  = UnhandledRejection "ExpiredToken".
Proof.
  destruct (rejected_auth_throws
              (Outage.auth_rejected "ExpiredToken"
                 (Sample.account Sample.with_typo 8 (Resolved tt)))
              Sample.with_typo "ExpiredToken")
    as (_ & Hmain & _).
  - reflexivity.
  - reflexivity.
  - now rewrite Hmain.
Defined.

Lemma hosted_zone_failure_stops_witness :
  filter is_probe
    (trace (snd (generate (Sample.account (Sample.with_zone "Z999") 8
                             (Resolved tt)))))
  = [GetHostedZone (JStr "Z999")].
Proof.
  destruct (hosted_zone_failure_stops
              (Sample.account (Sample.with_zone "Z999") 8 (Resolved tt))
              (Sample.with_zone "Z999") tt (JStr "Z999") "NoSuchHostedZone")
    as (_ & Hprobes & _);
    [reflexivity | reflexivity | reflexivity | reflexivity | reflexivity
    | exact Hprobes].
Defined.

Lemma no_zone_requested_no_lookup_witness :
  dnsBaseName
    (validatedSettings
       (snd (generate (Sample.account Outage.falsy_zone 8 (Resolved tt)))))
  = None.
Proof.
  destruct (no_zone_requested_no_lookup
              (Sample.account Outage.falsy_zone 8 (Resolved tt))
              Outage.falsy_zone)
    as (_ & Hdns & _); [reflexivity | reflexivity | exact Hdns].
Defined.

Lemma providerRegions_are_opted_in_witness :
  exists Regions,
    describeRegions (Sample.account Sample.plain 8 (Resolved tt))
    = Resolved Regions /\
    ["us-east-1"; "us-west-2"] = map RegionName (filter opted_in Regions).
Proof.
  destruct (providerRegions_are_opted_in
              (Sample.account Sample.plain 8 (Resolved tt))
              ["us-east-1"; "us-west-2"]
              (snd (survey_regions (Sample.account Sample.plain 8 (Resolved tt))
                      start)))
    as (Regions & HR & HP & _).
  - vm_compute. reflexivity.
  - exists Regions. now split.
Defined.

Lemma region_list_failure_stops_witness :
  fst (generate (Outage.regions_unavailable "AuthFailure"
                   (Sample.account Sample.plain 8 (Resolved tt))))
  = Return false.
Proof.
  destruct (region_list_failure_stops
              (Outage.regions_unavailable "AuthFailure"
                 (Sample.account Sample.plain 8 (Resolved tt)))
              (snd (survey_zone
                      (Outage.regions_unavailable "AuthFailure"
                         (Sample.account Sample.plain 8 (Resolved tt)))
                      start))
              "AuthFailure")
    as (Hrun & _).
  - vm_compute. reflexivity.
  - reflexivity.
  - now rewrite Hrun.
Defined.

Lemma rejected_quota_probe_throws_witness :
  exists e,
    fst (main (Outage.quotas_unavailable "us-west-2" "Throttling"
                 (Sample.account Sample.plain 8 (Resolved tt))))
    = UnhandledRejection e.
Proof.
  destruct (rejected_quota_probe_throws
              (Outage.quotas_unavailable "us-west-2" "Throttling"
                 (Sample.account Sample.plain 8 (Resolved tt)))
              ["us-east-1"; "us-west-2"]
              (snd (survey_regions
                      (Outage.quotas_unavailable "us-west-2" "Throttling"
                         (Sample.account Sample.plain 8 (Resolved tt)))
                      start))
              "us-west-2")
    as (r' & e & _ & _ & _ & Hmain & _).
  - vm_compute. reflexivity.
  - simpl. tauto.
  - reflexivity.
  - now exists e.
Defined.


Lemma regionQuotas_holds_last_row_witness :
  lookup [("us-east-1", [("L-3819A6DF", 8)])] "us-east-1" "L-3819A6DF"
  = expected_quota (Sample.account Sample.plain 8 (Resolved tt))
      "us-east-1" "L-3819A6DF".
Proof.
  destruct (regionQuotas_holds_last_row
              (Sample.account Sample.plain 8 (Resolved tt))
              [("us-east-1", [("L-3819A6DF", 8)])] 8
              (snd (survey_quotas (Sample.account Sample.plain 8 (Resolved tt))
                      start)))
    as (P & HP & Hin & _).
  - vm_compute. reflexivity.
  - apply Hin. vm_compute in HP. injection HP as <-. simpl. tauto.
Defined.

Lemma zone_map_lists_available_zones_witness :
  exists AvailabilityZones,
    describeAvailabilityZones (Sample.account Sample.plain 8 (Resolved tt))
      "us-east-1" = Resolved AvailabilityZones /\
    JsObject.get "us-east-1" [("us-east-1", ["us-east-1a"; "us-east-1c"])]
    = Some (zone_names AvailabilityZones).
Proof.
  destruct (zone_map_lists_available_zones
              (Sample.account Sample.plain 8 (Resolved tt))
              [("us-east-1", ["us-east-1a"; "us-east-1c"])])
    as (Q & _ & _ & _ & Hget).
  - vm_compute. reflexivity.
  - apply Hget. simpl. tauto.
Defined.

Lemma rejected_zone_probe_throws_witness :
  exists e,
    fst (generate (Outage.zones_unavailable "us-east-1" "RequestLimitExceeded"
                     (Sample.account Sample.plain 8 (Resolved tt))))
    = Throw e.
Proof.
  destruct (rejected_zone_probe_throws
              (Outage.zones_unavailable "us-east-1" "RequestLimitExceeded"
                 (Sample.account Sample.plain 8 (Resolved tt)))
              [("us-east-1", [("L-3819A6DF", 8)])] 8
              (snd (survey_quotas
                      (Outage.zones_unavailable "us-east-1"
                         "RequestLimitExceeded"
                         (Sample.account Sample.plain 8 (Resolved tt)))
                      start))
              "us-east-1")
    as (r' & e & _ & _ & Hrun & _).
  - vm_compute. reflexivity.
  - lia.
  - simpl. tauto.
  - reflexivity.
  - exists e. now rewrite Hrun.
Defined.

Lemma exported_snapshot_is_complete_witness :
  {| dnsBaseName := None;
     providerRegions := Some ["us-east-1"; "us-west-2"];
     quotas := Some [("us-east-1", [("L-3819A6DF", 8)])];
     regions := Some [("us-east-1", ["us-east-1a"; "us-east-1c"])];
     spotslr_exists := Some true |}
  = validatedSettings
      (snd (generate (Sample.account Sample.plain 8 (Resolved tt)))).
Proof.
  apply (exported_snapshot_is_complete
           (Sample.account Sample.plain 8 (Resolved tt))).
  vm_compute. tauto.
Defined.

Lemma apply_only_after_render_witness :
  resolved (render (Sample.account Sample.plain 8 (Resolved tt))) = true.
Proof.
  apply (apply_only_after_render (Sample.account Sample.plain 8 (Resolved tt))).
  vm_compute. tauto.
Defined.
